(** * proji: import pipeline and project materialization

    A shallow embedding of the algorithmic core of proji
    ([storage/models/package.go] and [pkg/proji/storage/models/project.go])
    together with the properties its specification states about it.

    Conventions.
    - A Go [string] is a sequence of bytes: Rocq's [string], whose
      characters ([ascii]) are exactly the 8-bit bytes.
    - An index expression that Go evaluates with a run-time bounds check
      returns [option]; [None] is the "index out of range" panic.
    - Library functions of Go that the source calls are modelled in
      [Module Go] from their documented behaviour. *)

From Stdlib Require Import ZArith Ascii String List Bool Lia Permutation.
From stdpp Require Import gmap strings list fin_maps.
Import ListNotations.

Local Open Scope string_scope.
Local Open Scope Z_scope.

(** ** Go builtins and standard-library functions used by the source *)

Module Go.

(** The numeric value of a byte, and the conversion [byte(x)] of an integer
    (truncation to the low 8 bits). *)
Definition byte_val (c : ascii) : Z := Z.of_N (N_of_ascii c).

Definition byte_of (z : Z) : ascii := ascii_of_N (Z.to_N (z mod 256)).

(** [string(b)] for a byte [b]: the UTF-8 encoding of the code point [b].
    Code points below 0x80 take one byte, the others of a byte's range
    take two. *)
Definition string_of_byte (c : ascii) : string :=
  let b := byte_val c in
  if b <? 128 then String c EmptyString
  else String (byte_of (Z.lor 192 (Z.shiftr b 6)))
         (String (byte_of (Z.lor 128 (Z.land b 63))) EmptyString).

(** [s[i]], with the bounds check. *)
Definition index (s : string) (i : nat) : option ascii := String.get i s.

(** [s[i:]] and [s[:j]], with the bounds check. *)
Definition slice_from (s : string) (i : nat) : option string :=
  if (i <=? String.length s)%nat
  then Some (String.substring i (String.length s - i) s) else None.

Definition slice_to (s : string) (j : Z) : option string :=
  if (0 <=? j) && (j <=? Z.of_nat (String.length s))
  then Some (String.substring 0 (Z.to_nat j) s) else None.

(** [strings.HasPrefix(s, prefix)]. *)
Definition HasPrefix (s pre : string) : bool := String.prefix pre s.

(** [strings.HasSuffix(s, suffix)]. *)
Definition HasSuffix (s suf : string) : bool :=
  (String.length suf <=? String.length s)%nat
  && String.eqb
       (String.substring (String.length s - String.length suf)
          (String.length suf) s) suf.

(** [strings.Split(s, sep)] for a non-empty separator: the substrings
    between the leftmost non-overlapping occurrences of [sep].  [skip]
    counts the bytes of a separator occurrence still to be passed over,
    [acc] is the part read so far. *)
Fixpoint split_from (sep : string) (skip : nat) (acc s : string)
    : list string :=
  match s with
  | EmptyString => [acc]
  | String c s' =>
      match skip with
      | S k => split_from sep k acc s'
      | O =>
          if String.prefix sep s
          then acc :: split_from sep (String.length sep - 1) EmptyString s'
          else split_from sep O (acc ++ String c EmptyString) s'
      end
  end.

Definition Split (s sep : string) : list string :=
  split_from sep O EmptyString s.

(** [unicode.IsUpper] and [unicode.ToUpper] on the code points a byte can
    hold (Latin-1).  The upper-case letters are A-Z, U+00C0-U+00D6 and
    U+00D8-U+00DE; the letters with an upper case are a-z (-32),
    U+00E0-U+00F6 and U+00F8-U+00FE (-32), U+00B5 (+743) and U+00FF (+121). *)
Definition IsUpper (r : Z) : bool :=
  ((65 <=? r) && (r <=? 90)) || ((192 <=? r) && (r <=? 214))
  || ((216 <=? r) && (r <=? 222)).

Definition ToUpper (r : Z) : Z :=
  if (97 <=? r) && (r <=? 122) then r - 32
  else if (224 <=? r) && (r <=? 246) then r - 32
  else if (248 <=? r) && (r <=? 254) then r - 32
  else if r =? 181 then r + 743
  else if r =? 255 then r + 121
  else r.

(** The matches of the regular expression [[A-Z][^A-Z]*] in [s], as
    [FindAllString(s, -1)] returns them: a match starts at each byte in
    A-Z and runs up to the next one; what precedes the first such byte
    is in no match.  (A multi-byte rune has no byte in A-Z, so the
    matches on the bytes are the matches on the runes.) *)
Definition isAZ (c : ascii) : bool :=
  (65 <=? byte_val c) && (byte_val c <=? 90).

Definition flush (cur : option string) : list string :=
  match cur with Some r => [r] | None => [] end.

Fixpoint upper_runs (cur : option string) (s : string) : list string :=
  match s with
  | EmptyString => flush cur
  | String c s' =>
      if isAZ c
      then flush cur ++ upper_runs (Some (String c EmptyString)) s'
      else upper_runs (option_map (fun r => r ++ String c EmptyString) cur) s'
  end.

Definition FindAllString_upper (s : string) : list string :=
  upper_runs None s.

(** [strings.ToLower]: on a string of ASCII bytes, A-Z are mapped to a-z
    byte by byte; any other string is mapped rune by rune through the
    Unicode tables ([strings.Map(unicode.ToLower, s)]), which is the
    parameter [mapLower]. *)
Fixpoint isASCII (s : string) : bool :=
  match s with
  | EmptyString => true
  | String c s' => (byte_val c <? 128) && isASCII s'
  end.

Definition lower_byte (c : ascii) : ascii :=
  if isAZ c then byte_of (byte_val c + 32) else c.

Fixpoint lower_ascii (s : string) : string :=
  match s with
  | EmptyString => EmptyString
  | String c s' => String (lower_byte c) (lower_ascii s')
  end.

Definition ToLower (mapLower : string -> string) (s : string) : string :=
  if isASCII s then lower_ascii s else mapLower s.

End Go.

(** ** The data model shared by both source files *)

(** A [Template]: a file or folder to create, and where to copy it from. *)
Record Template := mkTemplate {
  IsFile : bool;
  Path : string;
  Destination : string;
  Description : string
}.

(** Errors are represented by their message ([e.Error()]). *)
Definition Err : Type := string.

(** The outcome of a call that can return an error or panic. *)
Inductive result (A : Type) : Type :=
| Ok (a : A)
| Fail (e : Err)
| Panic.
Arguments Ok {A} a.
Arguments Fail {A} e.
Arguments Panic {A}.

(** ** Fan-out of goroutines joined by a [sync.WaitGroup]

    Both concurrent batches of the source have one shape: the main
    goroutine adds [n] to a wait group, launches goroutines that each run
    a task, send its outcome on a buffered channel and call [Done], and
    then blocks in [Wait] until the counter is zero.

    A run is an interleaving of the steps of the goroutines, in any
    order.  A step of a task either leaves the rest of the task to be run
    or ends the task with an outcome.  Launching has no effect on the
    shared state and is not a step of its own. *)

Module FanOut.

Section FanOut.

Context {State Task Out : Type}.

(** [body t s x s']: one step of task [t] on the shared state [s] leaves
    the state [s'] and either the task [t'] still to run ([x = inl t'])
    or the outcome [o] of the finished task ([x = inr o]). *)
Variable body : Task -> State -> Task + Out -> State -> Prop.

(** The channel an outcome is sent on, if it is sent at all, and the
    capacity the channels are made with. *)
Variable chan : Out -> option nat.
Variable cap : nat.

Record pool := mkPool {
  wg : Z;                (* the counter of the wait group *)
  running : list Task;   (* launched goroutines that have not finished *)
  shared : State;        (* the state the goroutines act on *)
  sent : list Out        (* the outcomes so far, in order of completion *)
}.

(** The number of values buffered in channel [k]. *)
Definition buffered (k : nat) (out : list Out) : nat :=
  length (List.filter
            (fun o => match chan o with
                      | Some k' => (k' =? k)%nat
                      | None => false
                      end) out).

(** One goroutine makes a step.  A send blocks while its channel is full;
    the deferred [wg.Done()] of a goroutine that ends decrements the
    counter. *)
Inductive step : pool -> pool -> Prop :=
| step_move pre t post n s t' s' out :
    body t s (inl t') s' ->
    step (mkPool n (pre ++ t :: post) s out)
         (mkPool n (pre ++ t' :: post) s' out)
| step_done pre t post n s o s' out :
    body t s (inr o) s' ->
    (forall k, chan o = Some k -> (buffered k out < cap)%nat) ->
    step (mkPool n (pre ++ t :: post) s out)
         (mkPool (n - 1) (pre ++ post) s' (out ++ [o])).

(** The states a run can be in after [wg.Add(n)] and the launch of [ts]. *)
Definition reachable (n : Z) (ts : list Task) (s : State) (p : pool) : Prop :=
  rtc step (mkPool n ts s []) p.

(** [wg.Wait()] returns in the states whose counter is zero. *)
Definition released (p : pool) : Prop := wg p = 0.

(** The steps the goroutines of a pool can still make, when a task [t]
    can make at most [cost t] steps before the one that ends it. *)
Definition weight (cost : Task -> nat) (p : pool) : nat :=
  list_sum (map (fun t => S (cost t)) (running p)).

End FanOut.

End FanOut.

(** The error a batch returns ([errMsg += fmt.Sprintf("%s\n", e.Error())]
    for every error read from the channel, and [errors.New(errMsg)] when
    [errMsg] is not empty): the messages one per line, or nil. *)
Definition newline : string := String "010"%char EmptyString.

Definition joinErrors (errs : list Err) : string :=
  fold_left (fun errMsg e => errMsg ++ e ++ newline) errs EmptyString.

Definition aggregate (errs : list Err) : option Err :=
  let errMsg := joinErrors errs in
  if (0 <? String.length errMsg)%nat then Some errMsg else None.

(** The messages of a list of errors, one per line. *)
Fixpoint lines (errs : list Err) : string :=
  match errs with
  | [] => EmptyString
  | e :: rest => e ++ newline ++ lines rest
  end.

(** ** storage/models/package.go *)

Module Package.

Record Plugin := mkPlugin {
  PluginPath : string;
  ExecNumber : Z;
  PluginDescription : string
}.

Record Package := mkPackage {
  Name : string;
  Label : string;
  PackageDescription : string;
  Templates : list Template;
  Plugins : list Plugin;
  IsDefault : bool
}.

Definition NewPackage (name label : string) (isDefault : bool) : Package :=
  mkPackage name label EmptyString [] [] isDefault.

Definition isEmpty (c : Package) : bool :=
  (length (Templates c) =? 0)%nat && (length (Plugins c) =? 0)%nat.

Definition templatesKey : string := "templates".
Definition pluginsKey : string := "plugins".

Section PickLabel.

(** [strings.Map(unicode.ToLower, _)], used by [strings.ToLower] on
    strings that are not pure ASCII. *)
Variable mapLower : string -> string.

Definition maxLabelLen : nat := 4.

Definition labelSeparators : list string := ["-"; "_"; "."; " "; "%20"].

(** The loop over [labelSeparators]: [parts] is overwritten by each split
    and the loop stops at the first one with more than one part. *)
Fixpoint splitBySeparators (seps : list string) (packageName : string)
    (parts : list string) : list string :=
  match seps with
  | [] => parts
  | d :: ds =>
      let parts := Go.Split packageName d in
      if (1 <? length parts)%nat then parts
      else splitBySeparators ds packageName parts
  end.

(** [for i, part := range parts { if i > maxLabelLen { break };
    label += string(part[0]) }].  [None] is the panic of [part[0]] on an
    empty part. *)
Fixpoint firstBytes (i : nat) (parts : list string) (label : string)
    : option string :=
  match parts with
  | [] => Some label
  | part :: rest =>
      if (maxLabelLen <? i)%nat then Some label
      else match Go.index part 0 with
           | None => None
           | Some c => firstBytes (S i) rest (label ++ Go.string_of_byte c)
           end
  end.

(** [pickLabel]; [None] is a run-time panic. *)
Definition pickLabel (packageName : string) : option string :=
  let nameLen := String.length packageName in
  if (nameLen <? 2)%nat then Some (Go.ToLower mapLower packageName)
  else
    let parts := splitBySeparators labelSeparators packageName [] in
    if (1 <? length parts)%nat then
      option_map (Go.ToLower mapLower) (firstBytes 0 parts EmptyString)
    else
      match Go.index packageName 0 with
      | None => None
      | Some c0 =>
          packageName1 ←
            (if negb (Go.IsUpper (Go.byte_val c0)) then
               tl ← Go.slice_from packageName 1;
               Some (Go.string_of_byte
                       (Go.byte_of (Go.ToUpper (Go.byte_val c0))) ++ tl)
             else Some packageName);
          let parts := Go.FindAllString_upper packageName1 in
          if (1 <? length parts)%nat then
            option_map (Go.ToLower mapLower) (firstBytes 0 parts EmptyString)
          else
            a ← Go.index packageName1 0;
            b ← Go.index packageName1 (nameLen / 2);
            c ← Go.index packageName1 (nameLen - 1);
            Some (Go.ToLower mapLower
                    (Go.string_of_byte a ++ Go.string_of_byte b
                     ++ Go.string_of_byte c))
      end.

End PickLabel.


(** *** Tree entries and their conversion *)

(** A compiled regular expression is represented by its match test:
    [re s] is [re.FindStringIndex(s) != nil]. *)
Definition Regexp : Type := string -> bool.

(** The two patterns the source compiles are literals (followed, in the
    second, by [.*], which matches the empty string): they match the
    strings that contain the literal. *)
Fixpoint Contains (s sub : string) : bool :=
  String.prefix sub s
  || match s with
     | EmptyString => false
     | String _ s' => Contains s' sub
     end.

Definition rexTemplates : Regexp := fun s => Contains s "templates/".
Definition rexConfigs : Regexp := fun s => Contains s "configs/".

(** [gh.TreeEntry]: the fields are pointers, and the getters return the
    empty string on a nil entry or a nil field. *)
Record GHTreeEntry := mkGH {
  ghPath : option string;
  ghType : option string
}.

Definition GetPath (e : option GHTreeEntry) : string :=
  match e with
  | Some {| ghPath := Some p |} => p
  | _ => EmptyString
  end.

Definition GetType (e : option GHTreeEntry) : string :=
  match e with
  | Some {| ghType := Some t |} => t
  | _ => EmptyString
  end.

(** [gl.TreeNode]: plain string fields.  The slice elements are the
    (non-nil) nodes the GitLab client decoded. *)
Record GLTreeNode := mkGL {
  glPath : string;
  glType : string
}.

(** The inner loop over the filters, from [skip := false]: the entry is
    skipped when there are filters and none matches. *)
Fixpoint skipEntry (filters : list Regexp) (path : string) (skip : bool)
    : bool :=
  match filters with
  | [] => skip
  | filter :: rest =>
      let skip := if negb skip then true else skip in
      if filter path then false
      else skipEntry rest path skip
  end.

Definition isBlob (type : string) : bool := String.eqb type "blob".

Fixpoint convertGHTreeEntries (treeEntries : list (option GHTreeEntry))
    (filters : list Regexp) (templates : list Template) : list Template :=
  match treeEntries with
  | [] => templates
  | entry :: rest =>
      if skipEntry filters (GetPath entry) false
      then convertGHTreeEntries rest filters templates
      else convertGHTreeEntries rest filters
             (templates ++ [mkTemplate (isBlob (GetType entry)) EmptyString
                              (GetPath entry) EmptyString])
  end.

Definition filterAndConvertGHTreeEntries
    (treeEntries : list (option GHTreeEntry)) (filters : list Regexp)
    : list Template :=
  convertGHTreeEntries treeEntries filters [].

Fixpoint convertGLTreeEntries (treeEntries : list GLTreeNode)
    (filters : list Regexp) (templates : list Template) : list Template :=
  match treeEntries with
  | [] => templates
  | entry :: rest =>
      if skipEntry filters (glPath entry) false
      then convertGLTreeEntries rest filters templates
      else convertGLTreeEntries rest filters
             (templates ++ [mkTemplate (isBlob (glType entry)) EmptyString
                              (glPath entry) EmptyString])
  end.

Definition filterAndConvertGLTreeEntries (treeEntries : list GLTreeNode)
    (filters : list Regexp) : list Template :=
  convertGLTreeEntries treeEntries filters [].

(** What the specification says of the conversion: an entry is kept when
    there is no filter or when some filter matches its path, and a kept
    entry of path [path] and type [type] becomes this template. *)
Definition kept (filters : list Regexp) (path : string) : bool :=
  match filters with
  | [] => true
  | _ => existsb (fun re => re path) filters
  end.

Definition templateOf (path type : string) : Template :=
  mkTemplate (String.eqb type "blob") EmptyString path EmptyString.

(** [repo.Importer] with its two implementations; any other
    implementation has no tree entries this file can read. *)
Inductive Importer : Type :=
| GitHub (TreeEntries : list (option GHTreeEntry))
| GitLab (TreeEntries : list GLTreeNode)
| OtherImporter.

Definition filterAndConvertTreeEntries (importer : Importer)
    (filters : list Regexp) : list Template :=
  match importer with
  | GitHub treeEntries => filterAndConvertGHTreeEntries treeEntries filters
  | GitLab treeEntries => filterAndConvertGLTreeEntries treeEntries filters
  | OtherImporter => []
  end.

(** *** The environment of the import operations

    What the import code calls outside its own file: path functions of
    the standard library, the importer's methods ([repo.Importer]), the
    download helper of [util], the TOML decoder and the Unicode tables.
    [World] is the state these calls read and change (file system and
    network). *)

Record URL := mkURL {
  urlString : string;   (* [u.String()] *)
  urlPath : string      (* [u.Path] *)
}.

Class Platform (World : Type) := {
  mapLower : string -> string;
  filepath_Join : list string -> string;
  filepath_Base : string -> string;
  path_Base : string -> string;
  os_TempDir : string;
  GetBaseConfigPath : string;
  ParseURL : string -> Err + URL;
  FilePathToRawURI : Importer -> string -> string;
  Repo : Importer -> string;
  LoadTreeEntries : Importer -> World -> option Err * Importer * World;
  DownloadFileIfNotExists : string -> string -> World -> option Err * World;
  os_Stat_Size : string -> World -> Err + Z;
  toml_Unmarshal : string -> World -> Package -> Err + Package
}.

(** The importer is shared by pointer among the tasks of a batch: it is
    part of the state they act on. *)
Record state (World : Type) := mkState {
  importer : Importer;
  world : World
}.
Arguments mkState {World} importer world.
Arguments importer {World} s.
Arguments world {World} s.

(** [filesToDownload]: a Go map from a file type to the list of files. *)
Abbreviation FileMap := (gmap string (list string)).

(** [m[key] = append(m[key], file)]. *)
Definition appendFile (key file : string) (m : FileMap) : FileMap :=
  <[key := ((m !!! key) ++ [file])%list]> m.

(** The only keys of [filesToDownload] are the two file types. *)
Definition keysOK (m : FileMap) : Prop :=
  forall k, is_Some (m !! k) -> k = templatesKey \/ k = pluginsKey.

Section Importing.

Context {World : Type} `{Platform World}.

(** [ImportFromConfig]: the package [c] with the fields of the file
    decoded into it. *)
Definition ImportFromConfig (path : string) (c : Package) (w : World)
    : result Package :=
  if negb (Go.HasSuffix path ".toml")
  then Fail "import file has to be of type 'toml'"
  else
    match os_Stat_Size path w with
    | inl e => Fail e
    | inr size =>
        if size =? 0 then Fail "import file is empty"
        else
          match toml_Unmarshal path w c with
          | inl e => Fail e
          | inr c =>
              if (String.length (Name c) <? 1)%nat
              then Fail "name cannot be an empty string"
              else if (String.length (Label c) <? 1)%nat
              then Fail "label cannot be an empty string"
              else if isEmpty c
              then Fail "no relevant data was found. Config might be empty"
              else Ok c
          end
    end.

(** [ImportFromRepoStructure]. *)
Definition ImportFromRepoStructure (c : Package) (filters : list Regexp)
    (st : state World) : result Package * state World :=
  let '(err, imp, w) := LoadTreeEntries (importer st) (world st) in
  let st := mkState imp w in
  match err with
  | Some e => (Fail e, st)
  | None =>
      let c := mkPackage (Name c) (Label c) (PackageDescription c)
                 (filterAndConvertTreeEntries imp filters) (Plugins c)
                 (IsDefault c) in
      if isEmpty c
      then (Fail "no relevant data was found. Platform might be unsupported",
            st)
      else
        let name := path_Base (Repo imp) in
        match pickLabel mapLower name with
        | None => (Panic, st)
        | Some label =>
            (Ok (mkPackage name label (PackageDescription c) (Templates c)
                   (Plugins c) (IsDefault c)), st)
        end
  end.

(** The inner loop of [ImportFromRepo] over the filtered tree entries.
    Its loop variable is named [template] like the one of the enclosing
    loop and shadows it: the [template.Path] of the prefix test is the
    [Path] of the tree entry. *)
Fixpoint queueMatching (templates : list Template) (files : FileMap)
    : option FileMap :=
  match templates with
  | [] => Some files
  | template :: rest =>
      trimmedFilePath ←
        Go.slice_from (Destination template) (String.length "templates/");
      queueMatching rest
        (if Go.HasPrefix trimmedFilePath (Path template)
         then appendFile templatesKey trimmedFilePath files
         else files)
  end.

(** The tree is loaded and filtered once, when the first template with a
    path is met: [memo] is [None] while [rex == nil]. *)
Definition loadTemplates (memo : option (list Template)) (st : state World)
    : (Err + list Template) * state World :=
  match memo with
  | Some templates => (inr templates, st)
  | None =>
      let '(err, imp, w) := LoadTreeEntries (importer st) (world st) in
      match err with
      | Some e => (inl e, mkState imp w)
      | None =>
          (inr (filterAndConvertTreeEntries imp [rexTemplates]),
           mkState imp w)
      end
  end.

(** The first loop of [ImportFromRepo] over the templates of the package. *)
Fixpoint queueTemplateDeps (cName : string) (cTemplates : list Template)
    (memo : option (list Template)) (st : state World) (files : FileMap)
    : result FileMap * state World :=
  match cTemplates with
  | [] => (Ok files, st)
  | template :: rest =>
      if String.eqb (Path template) EmptyString
      then queueTemplateDeps cName rest memo st files
      else
        let '(loaded, st) := loadTemplates memo st in
        match loaded with
        | inl e => (Fail e, st)
        | inr templates =>
            if (length templates <? 1)%nat
            then (Fail ("no templates were found in repo but package "
                        ++ cName ++ " requires templates"), st)
            else
              match queueMatching templates files with
              | None => (Panic, st)
              | Some files =>
                  queueTemplateDeps cName rest (Some templates) st files
              end
        end
  end.

(** The two loops that queue every [Template.Path] and every
    [Plugin.Path]. *)
Definition queueDeclared (c : Package) (files : FileMap) : FileMap :=
  let files :=
    fold_left (fun m template => appendFile templatesKey (Path template) m)
      (Templates c) files in
  fold_left (fun m plugin => appendFile pluginsKey (PluginPath plugin) m)
    (Plugins c) files.

(** [ImportFromRepo] up to the concurrent download: the imported package
    and the files to download. *)
Definition prepareImport (packageURL : URL) (c : Package) (st : state World)
    : result (Package * FileMap) * state World :=
  let f := filepath_Join [os_TempDir; "/proji/configs/";
                          filepath_Base (urlPath packageURL)] in
  let dwn := FilePathToRawURI (importer st)
               (filepath_Join ["configs/";
                               filepath_Base (urlPath packageURL)]) in
  let '(err, w) := DownloadFileIfNotExists f dwn (world st) in
  let st := mkState (importer st) w in
  match err with
  | Some e => (Fail e, st)
  | None =>
      match ImportFromConfig f c w with
      | Fail e => (Fail e, st)
      | Panic => (Panic, st)
      | Ok c =>
          match queueTemplateDeps (Name c) (Templates c) None st ∅ with
          | (Ok files, st) => (Ok (c, queueDeclared c files), st)
          | (Fail e, st) => (Fail e, st)
          | (Panic, st) => (Panic, st)
          end
      end
  end.

(** The goroutines of the download: one per file of every list of the
    map, each with its file type. *)
Definition fetchTasks (files : FileMap) : list (string * string) :=
  '(fileType, fileList) ← map_to_list files;
  (fun file => (fileType, file)) <$> fileList.

Definition numFiles (files : FileMap) : nat :=
  (length (files !!! templatesKey) + length (files !!! pluginsKey))%nat.

(** The goroutines assign the result of the download to [err], the
    variable of [ImportFromRepo] that their closure captures, and read
    it back in [if err != nil { errs <- err }]: the variable is part of
    the state they share. *)
Record batch := mkBatch {
  base : state World;
  err : option Err
}.

(** Where a download goroutine is: before the download, before the test
    of [err], or before the send. *)
Inductive stage : Type := Start | Stored | Sending.

Record fetchTask := mkFetch {
  fileType : string;
  file : string;
  at_stage : stage
}.

Definition launch (task : string * string) : fetchTask :=
  mkFetch task.1 task.2 Start.

(** The steps of a download goroutine.  Its outcome is what it sends on
    [errs]: nothing, or the value of [err] at the time of the send. *)
Inductive fetchBody
    : fetchTask -> batch -> fetchTask + option (option Err) -> batch -> Prop :=
| fetch_download fileType file b e w :
    DownloadFileIfNotExists
      (filepath_Join [GetBaseConfigPath; fileType; file])
      (FilePathToRawURI (importer (base b)) (filepath_Join [fileType; file]))
      (world (base b)) = (e, w) ->
    fetchBody (mkFetch fileType file Start) b
      (inl (mkFetch fileType file Stored))
      (mkBatch (mkState (importer (base b)) w) e)
| fetch_skip fileType file b :
    err b = None ->
    fetchBody (mkFetch fileType file Stored) b (inr None) b
| fetch_test fileType file b e :
    err b = Some e ->
    fetchBody (mkFetch fileType file Stored) b
      (inl (mkFetch fileType file Sending)) b
| fetch_send fileType file b :
    fetchBody (mkFetch fileType file Sending) b (inr (Some (err b))) b.

(** A goroutine makes at most two steps before the one that ends it. *)
Definition fetchCost (t : fetchTask) : nat :=
  match at_stage t with
  | Start => 2
  | Stored => 1
  | Sending => 0
  end.

(** There is one channel, [errs]. *)
Definition fetchChan (o : option (option Err)) : option nat :=
  match o with Some _ => Some 0%nat | None => None end.

(** The errors read from the closed channel that are not nil. *)
Definition fetchErrors (out : list (option (option Err))) : list Err :=
  omap (fun o => match o with Some (Some e) => Some e | _ => None end) out.

(** The download of [ImportFromRepo]: [wg.Add(numFiles)], one goroutine
    per file, [wg.Wait()], then the errors joined.  [err] is nil when the
    goroutines are launched: [ImportFromRepo] has returned on every error
    before. *)
Inductive fetchAll (files : FileMap) (st : state World)
    : option Err -> state World -> Prop :=
| fetchAll_done p :
    FanOut.reachable fetchBody fetchChan (numFiles files)
      (Z.of_nat (numFiles files)) (launch <$> fetchTasks files)
      (mkBatch st None) p ->
    FanOut.released p ->
    fetchAll files st (aggregate (fetchErrors (FanOut.sent p)))
      (base (FanOut.shared p)).

(** [ImportFromRepo]. *)
Inductive ImportFromRepo (packageURL : URL) (c : Package) (st : state World)
    : result Package -> state World -> Prop :=
| import_fail e st1 :
    prepareImport packageURL c st = (Fail e, st1) ->
    ImportFromRepo packageURL c st (Fail e) st1
| import_panic st1 :
    prepareImport packageURL c st = (Panic, st1) ->
    ImportFromRepo packageURL c st Panic st1
| import_fetch c1 files st1 err st2 :
    prepareImport packageURL c st = (Ok (c1, files), st1) ->
    fetchAll files st1 err st2 ->
    ImportFromRepo packageURL c st
      (match err with Some e => Fail e | None => Ok c1 end) st2.

(** One goroutine of [ImportCollectionFromRepo], which is taken as a
    single step here. *)
Inductive importTask (collectionURL : URL) (template : Template)
    (st : state World) : result Package -> state World -> Prop :=
| task_url_fail e :
    ParseURL (urlString collectionURL ++ "/" ++ Destination template)
      = inl e ->
    importTask collectionURL template st (Fail e) st
| task_import packageURL r st' :
    ParseURL (urlString collectionURL ++ "/" ++ Destination template)
      = inr packageURL ->
    ImportFromRepo packageURL (NewPackage EmptyString EmptyString false) st
      r st' ->
    importTask collectionURL template st r st'.

Definition importBody (collectionURL : URL) (template : Template)
    (st : state World) (x : Template + result Package) (st' : state World)
    : Prop :=
  exists r, x = inr r /\ importTask collectionURL template st r st'.

(** A package goes to [packageChannel], an error to [errs]. *)
Definition importChan (r : result Package) : option nat :=
  match r with
  | Ok _ => Some 0%nat
  | Fail _ => Some 1%nat
  | Panic => None
  end.

Definition importedPackages (out : list (result Package)) : list Package :=
  omap (fun r => match r with Ok pkg => Some pkg | _ => None end) out.

Definition importErrors (out : list (result Package)) : list Err :=
  omap (fun r => match r with Fail e => Some e | _ => None end) out.

Definition anyPanic (out : list (result Package)) : bool :=
  existsb (fun r => match r with Panic => true | _ => false end) out.

(** The tasks of [ImportCollectionFromRepo]: the loop launches a goroutine
    for the templates that are files and skips the others. *)
Definition collectionTasks (c : Package) : list Template :=
  List.filter IsFile (Templates c).

(** [ImportCollectionFromRepo]: the list of packages and the error it
    returns.  A panic of a goroutine ends the program. *)
Inductive ImportCollectionFromRepo (collectionURL : URL) (st : state World)
    : result (list Package * option Err) -> state World -> Prop :=
| collection_fail e st1 :
    ImportFromRepoStructure (NewPackage EmptyString EmptyString false)
      [rexConfigs] st = (Fail e, st1) ->
    ImportCollectionFromRepo collectionURL st (Fail e) st1
| collection_panic st1 :
    ImportFromRepoStructure (NewPackage EmptyString EmptyString false)
      [rexConfigs] st = (Panic, st1) ->
    ImportCollectionFromRepo collectionURL st Panic st1
| collection_empty c st1 :
    ImportFromRepoStructure (NewPackage EmptyString EmptyString false)
      [rexConfigs] st = (Ok c, st1) ->
    isEmpty c = true ->
    ImportCollectionFromRepo collectionURL st
      (Fail "no configs were found") st1
| collection_run c st1 p :
    ImportFromRepoStructure (NewPackage EmptyString EmptyString false)
      [rexConfigs] st = (Ok c, st1) ->
    isEmpty c = false ->
    FanOut.reachable (importBody collectionURL) importChan
      (length (Templates c)) (Z.of_nat (length (Templates c)))
      (collectionTasks c) st1 p ->
    FanOut.released p ->
    ImportCollectionFromRepo collectionURL st
      (if anyPanic (FanOut.sent p) then Panic
       else Ok (importedPackages (FanOut.sent p),
                aggregate (importErrors (FanOut.sent p))))
      (FanOut.shared p).

End Importing.

End Package.

(** ** storage/models/package.go: the import of a folder *)

Module Folder.

(** The tree [filepath.Walk] finds at the path to import: a file, a
    directory with its entries in the order [Walk] visits them (sorted by
    name), or an entry that [Walk] passes to its function with an error
    because it cannot be read.  The name of the root is the base name of
    the path. *)
#[warnings="-register-all"]
Inductive node : Type :=
| File (name : string)
| Dir (name : string) (children : list node)
| Broken (name : string) (e : Err).

Definition nodeName (n : node) : string :=
  match n with
  | File name => name
  | Dir name _ => name
  | Broken name _ => name
  end.

(** [filepath.Rel(path, currentPath)] for an entry below the root: the
    names on the way from the root, joined by the separator. *)
Definition joinRel (rel name : string) : string :=
  if String.eqb rel "" then name else rel ++ "/" ++ name.

Section Walk.

(** [strings.Map(unicode.ToLower, _)] and [util.IsInSlice]. *)
Variable mapLower : string -> string.
Variable IsInSlice : list string -> string -> bool.

Variable excludeDirs : list string.

(** The function [ImportFromFolderStructure] passes to [Walk], on an
    entry below the root, and [Walk] on the entries of a directory that
    the function did not answer with [SkipDir].  [inl e] is an error that
    ends the walk. *)
Fixpoint walk (rel : string) (n : node) (templates : list Template)
    {struct n} : Err + list Template :=
  match n with
  | Broken _ e => inl e
  | File _ => inr (templates ++ [mkTemplate true "" rel ""])%list
  | Dir name children =>
      if IsInSlice excludeDirs name then inr templates
      else
        (fix walkAll (cs : list node) (templates : list Template)
           : Err + list Template :=
           match cs with
           | [] => inr templates
           | child :: rest =>
               match walk (joinRel rel (nodeName child)) child templates with
               | inl e => inl e
               | inr templates => walkAll rest templates
               end
           end) children (templates ++ [mkTemplate false "" rel ""])%list
  end.

Fixpoint walkChildren (rel : string) (cs : list node)
    (templates : list Template) : Err + list Template :=
  match cs with
  | [] => inr templates
  | child :: rest =>
      match walk (joinRel rel (nodeName child)) child templates with
      | inl e => inl e
      | inr templates => walkChildren rel rest templates
      end
  end.

(** [Walk] from the root, which the function skips. *)
Definition walkRoot (root : node) (templates : list Template)
    : Err + list Template :=
  match root with
  | Broken _ e => inl e
  | File _ => inr templates
  | Dir _ children => walkChildren "" children templates
  end.

(** [ImportFromFolderStructure]; [root] is [None] when the path does not
    exist. *)
Definition ImportFromFolderStructure (c : Package.Package)
    (root : option node) : result Package.Package :=
  match root with
  | None => Fail "given directory does not exist"
  | Some root =>
      match Package.pickLabel mapLower (nodeName root) with
      | None => Panic
      | Some label =>
          match walkRoot root (Package.Templates c) with
          | inl e => Fail e
          | inr templates =>
              let c := Package.mkPackage (nodeName root) label
                         (Package.PackageDescription c) templates
                         (Package.Plugins c) (Package.IsDefault c) in
              if Package.isEmpty c
              then Fail "no relevant data was found. Directory might be empty"
              else Ok c
          end
      end
  end.

(** What the walk records, said directly: every entry below the root in
    depth-first order, with its relative path, except the directories
    whose name is excluded and all that is below them. *)
Fixpoint listed (rel : string) (n : node) {struct n} : list Template :=
  match n with
  | Broken _ _ => []
  | File _ => [mkTemplate true "" rel ""]
  | Dir name children =>
      if IsInSlice excludeDirs name then []
      else mkTemplate false "" rel ""
           :: flat_map
                (fun child => listed (joinRel rel (nodeName child)) child)
                children
  end.

Definition listedBelow (root : node) : list Template :=
  match root with
  | Dir _ children =>
      flat_map (fun child => listed (nodeName child) child) children
  | _ => []
  end.

(** The entries that cannot be read and are not below an excluded
    directory. *)
Fixpoint broken (n : node) {struct n} : list Err :=
  match n with
  | Broken _ e => [e]
  | File _ => []
  | Dir name children =>
      if IsInSlice excludeDirs name then [] else flat_map broken children
  end.

Definition brokenBelow (root : node) : list Err :=
  match root with
  | Dir _ children => flat_map broken children
  | Broken _ e => [e]
  | File _ => []
  end.

(** The entries of a tree, the root included, and the files among
    them. *)
Fixpoint entries (n : node) {struct n} : nat :=
  match n with
  | Dir _ children => S (list_sum (map entries children))
  | _ => 1
  end.

Fixpoint files (n : node) {struct n} : nat :=
  match n with
  | File _ => 1
  | Dir _ children => list_sum (map files children)
  | Broken _ _ => 0
  end.

(** A tree all of whose entries can be read and none of whose
    directories is excluded. *)
Fixpoint plain (n : node) {struct n} : bool :=
  match n with
  | File _ => true
  | Broken _ _ => false
  | Dir name children =>
      negb (IsInSlice excludeDirs name) && forallb plain children
  end.

Definition plainBelow (root : node) : bool :=
  match root with
  | Dir _ children => forallb plain children
  | File _ => true
  | Broken _ _ => false
  end.

End Walk.

End Folder.

(** ** pkg/proji/storage/models/project.go *)

Module Project.

Record Plugin := mkPlugin {
  PluginName : string;
  ExecNumber : Z
}.

(** [Class]: the package a project is created from. *)
Record Class := mkClass {
  Templates : list Template;
  Plugins : list Plugin
}.

Record Project := mkProject {
  Name : string;
  ProjectPath : string;
  class : Class
}.

Definition NewProject (name path : string) (c : Class) : Project :=
  mkProject name path c.

(** The calls into the operating system and into the copy library, as
    functions on the state of the process and its file system. *)
Class OS (World : Type) := {
  os_Mkdir : string -> World -> option Err * World;
  os_Chdir : string -> World -> option Err * World;
  os_Create : string -> World -> option Err * World;
  os_MkdirAll : string -> World -> option Err * World;
  copy_Copy : string -> string -> World -> option Err * World;
  cmd_Run : string -> World -> option Err * World;
  filepath_Join : list string -> string
}.

(** The calls a run makes, in the order it makes them. *)
Inductive event : Type :=
| EvMkdir (name : string)
| EvChdir (dir : string)
| EvCopy (src dst : string)
| EvCreate (name : string)
| EvMkdirAll (path : string)
| EvRun (pluginPath : string).

Record state (World : Type) := mkState {
  world : World;
  log : list event
}.
Arguments mkState {World} world log.
Arguments world {World} s.
Arguments log {World} s.

Section Materialize.

Context {World : Type} `{OS World}.

(** A computation that returns an [error] (or panics) and changes the
    state. *)
Definition M : Type := state World -> result unit * state World.

Definition ret : M := fun s => (Ok tt, s).

Definition panic : M := fun s => (Panic, s).

(** [err := m; if err != nil { return err }; k]. *)
Definition andThen (m k : M) : M :=
  fun s =>
    match m s with
    | (Ok _, s1) => k s1
    | (Fail e, s1) => (Fail e, s1)
    | (Panic, s1) => (Panic, s1)
    end.

Local Notation "m ;; k" := (andThen m k)
  (at level 100, k at level 200, right associativity).

(** One call into the environment, recorded in the log. *)
Definition call (ev : event) (op : World -> option Err * World) : M :=
  fun s =>
    let '(err, w) := op (world s) in
    (match err with Some e => Fail e | None => Ok tt end,
     mkState w (log s ++ [ev])%list).

(** [defer d; body]: [d] runs when [body] is left, whether it returned or
    panicked, and what [d] returns is dropped. *)
Definition defer (d body : M) : M :=
  fun s =>
    let '(r, s1) := body s in
    let '(_, s2) := d s1 in
    (r, s2).

Definition createProjectFolder (p : Project) : M :=
  call (EvMkdir (Name p)) (os_Mkdir (Name p)).

Definition runPlugin (pluginPath : string) : M :=
  call (EvRun pluginPath) (cmd_Run pluginPath).

Definition pluginPathOf (configPath : string) (plugin : Plugin) : string :=
  filepath_Join [configPath; "/plugins/"; PluginName plugin].

Fixpoint preRunLoop (configPath : string) (plugins : list Plugin) : M :=
  match plugins with
  | [] => ret
  | plugin :: rest =>
      if ExecNumber plugin >=? 0 then preRunLoop configPath rest
      else runPlugin (pluginPathOf configPath plugin) ;;
           preRunLoop configPath rest
  end.

Definition preRunPlugins (p : Project) (configPath : string) : M :=
  preRunLoop configPath (Plugins (class p)).

Fixpoint postRunLoop (configPath : string) (plugins : list Plugin) : M :=
  match plugins with
  | [] => ret
  | plugin :: rest =>
      if ExecNumber plugin <=? 0 then postRunLoop configPath rest
      else runPlugin (pluginPathOf configPath plugin) ;;
           postRunLoop configPath rest
  end.

Definition postRunPlugins (p : Project) (configPath : string) : M :=
  postRunLoop configPath (Plugins (class p)).

(** The body of the loop of [createFilesAndFolders] for one template. *)
Definition writeTemplate (templatePath : string) (template : Template) : M :=
  (if (0 <? String.length (Path template))%nat
   then call (EvCopy (filepath_Join [templatePath; "/"; Path template])
                (Destination template))
          (copy_Copy (filepath_Join [templatePath; "/"; Path template])
             (Destination template))
   else ret) ;;
  (if IsFile template
   then call (EvCreate (Destination template))
          (os_Create (Destination template))
   else call (EvMkdirAll (Destination template))
          (os_MkdirAll (Destination template))).

Fixpoint writeTemplates (templatePath : string) (templates : list Template)
    : M :=
  match templates with
  | [] => ret
  | template :: rest =>
      writeTemplate templatePath template ;; writeTemplates templatePath rest
  end.

Definition createFilesAndFolders (p : Project) (configPath : string) : M :=
  writeTemplates (filepath_Join [configPath; "/templates/"])
    (Templates (class p)).

(** The directory [Create] changes back to: [cwd] with a slash appended
    unless [cwd[:len(cwd)-1]] is ["/"].  [None] is the panic of the slice
    expression. *)
Definition normalizeCwd (cwd : string) : option string :=
  head ← Go.slice_to cwd (Z.of_nat (String.length cwd) - 1);
  Some (if negb (String.eqb head "/") then cwd ++ "/" else cwd).

(** [Create]. *)
Definition Create (p : Project) (cwd configPath : string) : M :=
  createProjectFolder p ;;
  call (EvChdir (Name p)) (os_Chdir (Name p)) ;;
  match normalizeCwd cwd with
  | None => panic
  | Some cwd =>
      defer (call (EvChdir cwd) (os_Chdir cwd))
        (preRunPlugins p configPath ;;
         createFilesAndFolders p configPath ;;
         postRunPlugins p configPath)
  end.

(** The plugins of the two phases. *)
Definition isPre (plugin : Plugin) : bool := ExecNumber plugin <? 0.
Definition isPost (plugin : Plugin) : bool := 0 <? ExecNumber plugin.

(** The events of running these plugins one after the other. *)
Definition runs (configPath : string) (ran : list Plugin) : list event :=
  map (fun plugin => EvRun (pluginPathOf configPath plugin)) ran.

(** A computation that never panics. *)
Definition safe (m : M) : Prop :=
  forall s, (m s).1 <> Panic.

(** The three phases [Create] runs after it has entered the project. *)
Definition phases (p : Project) (configPath : string) : M :=
  andThen (preRunPlugins p configPath)
    (andThen (createFilesAndFolders p configPath)
       (postRunPlugins p configPath)).

(** The events of the step of a template that is a file. *)
Definition fileEvents (templatePath : string) (template : Template)
    : list event :=
  ((if (0 <? String.length (Path template))%nat
    then [EvCopy (filepath_Join [templatePath; "/"; Path template])
            (Destination template)]
    else []) ++ [EvCreate (Destination template)])%list.

End Materialize.

End Project.

(** ** A small concrete environment

    An instance of each environment on which the models run: a file
    system that maps a path to the content of the file there, a network
    on which a download fails exactly for the sources that contain
    ["missing"], and plugins that fail exactly when their path ends in
    ["fail"]. *)

Module Sample.

(** Paths are joined with single slashes, as [filepath.Join] cleans
    them. *)
Fixpoint squeeze (afterSlash : bool) (s : string) : string :=
  match s with
  | EmptyString => EmptyString
  | String c rest =>
      if Ascii.eqb c "/"
      then (if afterSlash then squeeze true rest
            else String c (squeeze true rest))
      else String c (squeeze false rest)
  end.

Definition trimSlash (s : string) : string :=
  if Go.HasSuffix s "/" && (1 <? String.length s)%nat
  then String.substring 0 (String.length s - 1) s else s.

Definition joinPath (parts : list string) : string :=
  trimSlash (squeeze false (String.concat "/" parts)).

Definition baseName (path : string) : string :=
  List.last (Go.Split path "/") EmptyString.

Definition download (dst src : string) (w : gmap string string)
    : option Err * gmap string string :=
  match w !! dst with
  | Some _ => (None, w)
  | None =>
      if Package.Contains src "missing"
      then (Some ("cannot download " ++ src), w)
      else (None, <[dst := src]> w)
  end.

(** The package every config file decodes to. *)
Definition decoded : Package.Package :=
  Package.mkPackage "demo" "dmo" EmptyString
    [mkTemplate true EmptyString "README.md" EmptyString]
    [Package.mkPlugin "missing.sh" 1 EmptyString] false.

#[global] Instance platform : Package.Platform (gmap string string) := {|
  Package.mapLower := fun s => s;
  Package.filepath_Join := joinPath;
  Package.filepath_Base := baseName;
  Package.path_Base := baseName;
  Package.os_TempDir := "/tmp";
  Package.GetBaseConfigPath := "/cfg";
  Package.ParseURL := fun s => inr (Package.mkURL s s);
  Package.FilePathToRawURI := fun _ p => "raw/" ++ p;
  Package.Repo := fun _ => "github.com/someone/collection";
  Package.LoadTreeEntries := fun imp w => (None, imp, w);
  Package.DownloadFileIfNotExists := download;
  Package.os_Stat_Size := fun _ _ => inr 1;
  Package.toml_Unmarshal := fun _ _ _ => inr decoded
|}.

Definition blob (path : string) : option Package.GHTreeEntry :=
  Some (Package.mkGH (Some path) (Some "blob")).

Definition tree (path : string) : option Package.GHTreeEntry :=
  Some (Package.mkGH (Some path) (Some "tree")).

(** A repository whose [templates/] folder holds two template folders. *)
Definition twoFolders : Package.Importer :=
  Package.GitHub [tree "templates"; tree "templates/foo";
                  blob "templates/foo/a.txt"; tree "templates/bar";
                  blob "templates/bar/b.txt"].

(** A collection with a sub-folder in [configs/]. *)
Definition nestedConfigs : Package.Importer :=
  Package.GitHub [tree "configs"; tree "configs/sub";
                  blob "configs/sub/a.toml"].

(** The process and its file system: the working directory, the
    directories and the files with their content. *)
Record process := mkProcess {
  workdir : string;
  dirs : list string;
  files : gmap string string
}.

Definition mkdir (name : string) (w : process) : option Err * process :=
  if existsb (String.eqb name) (dirs w)
  then (Some ("mkdir " ++ name ++ ": file exists"), w)
  else (None, mkProcess (workdir w) (name :: dirs w) (files w)).

Definition chdir (dir : string) (w : process) : option Err * process :=
  (None, mkProcess dir (dirs w) (files w)).

Definition create (name : string) (w : process) : option Err * process :=
  (None, mkProcess (workdir w) (dirs w) (<[name := EmptyString]> (files w))).

Definition mkdirAll (path : string) (w : process) : option Err * process :=
  (None, mkProcess (workdir w) (path :: dirs w) (files w)).

Definition copy (src dst : string) (w : process) : option Err * process :=
  match files w !! src with
  | Some content =>
      (None, mkProcess (workdir w) (dirs w) (<[dst := content]> (files w)))
  | None => (Some ("no such file: " ++ src), w)
  end.

Definition run (pluginPath : string) (w : process) : option Err * process :=
  if Go.HasSuffix pluginPath "fail"
  then (Some "exit status 1", w) else (None, w).

#[global] Instance os : Project.OS process := {|
  Project.os_Mkdir := mkdir;
  Project.os_Chdir := chdir;
  Project.os_Create := create;
  Project.os_MkdirAll := mkdirAll;
  Project.copy_Copy := copy;
  Project.cmd_Run := run;
  Project.filepath_Join := joinPath
|}.

(** The content of the file at a path. *)
Definition readFile (w : process) (name : string) : option string :=
  files w !! name.

(** A template store with one file, and a project that copies it. *)
Definition store : process :=
  mkProcess "/home/u" []
    {[ joinPath [joinPath ["/cfg"; "/templates/"]; "/"; "main.go"]
       := "package main" ]}.

Definition goProject : Project.Project :=
  Project.mkProject "app" "/home/u/app"
    (Project.mkClass [mkTemplate true "main.go" "main.go" EmptyString]
       [Project.mkPlugin "init" (-1); Project.mkPlugin "idle" 0;
        Project.mkPlugin "done" 1]).

(** The same project with a plugin after the templates that exits with a
    status that is not zero. *)
Definition failing : Project.Project :=
  Project.mkProject "app" "/home/u/app"
    (Project.mkClass [mkTemplate true "main.go" "main.go" EmptyString]
       [Project.mkPlugin "init" (-1); Project.mkPlugin "fail" 1]).

(** The empty disk, and the addresses of the sample repository. *)
Definition disk : gmap string string := ∅.

Definition configURL : Package.URL :=
  Package.mkURL "https://github.com/someone/collection/configs/demo.toml"
    "/someone/collection/configs/demo.toml".

Definition collectionURL : Package.URL :=
  Package.mkURL "https://github.com/someone/collection" "/someone/collection".

(** The package and the files queued by the sample import. *)
Definition prepared
    : result (Package.Package * gmap string (list string))
      * Package.state (gmap string string) :=
  Package.prepareImport configURL
    (Package.NewPackage EmptyString EmptyString false)
    (Package.mkState twoFolders disk).

Definition preparedFiles : gmap string (list string) :=
  match prepared with
  | (Ok (_, files), _) => files
  | _ => ∅
  end.

(** The sample process starts in "/home/u", with the template store
    filled and no project folder. *)
Definition start : Project.state process := Project.mkState store [].

(** An environment like [platform] where every download succeeds. *)
Definition mirror : Package.Platform (gmap string string) := {|
  Package.mapLower := fun s => s;
  Package.filepath_Join := joinPath;
  Package.filepath_Base := baseName;
  Package.path_Base := baseName;
  Package.os_TempDir := "/tmp";
  Package.GetBaseConfigPath := "/cfg";
  Package.ParseURL := fun s => inr (Package.mkURL s s);
  Package.FilePathToRawURI := fun _ p => "raw/" ++ p;
  Package.Repo := fun _ => "github.com/someone/collection";
  Package.LoadTreeEntries := fun imp w => (None, imp, w);
  Package.DownloadFileIfNotExists := fun dst src w => (None, <[dst := src]> w);
  Package.os_Stat_Size := fun _ _ => inr 1;
  Package.toml_Unmarshal := fun _ _ _ => inr decoded
|}.

(** The package and the files queued by the sample import there. *)
Definition mirrored
    : result (Package.Package * gmap string (list string))
      * Package.state (gmap string string) :=
  Package.prepareImport (H := mirror) configURL
    (Package.NewPackage EmptyString EmptyString false)
    (Package.mkState twoFolders disk).

Definition mirroredFiles : gmap string (list string) :=
  match mirrored with
  | (Ok (_, files), _) => files
  | _ => ∅
  end.

(** A collection whose only config cannot be downloaded. *)
Definition lostConfig : Package.Importer :=
  Package.GitHub [tree "configs"; blob "configs/missing.toml"].

(** [util.IsInSlice], and a folder to import. *)
Definition IsInSlice (slice : list string) (val : string) : bool :=
  existsb (String.eqb val) slice.

Definition folder : Folder.node :=
  Folder.Dir "my-app"
    [Folder.File "README.md";
     Folder.Dir "cmd" [Folder.File "main.go"];
     Folder.Dir "docs" []].

End Sample.

(** ** Shapes of labels *)

Module Label.

(** An ASCII byte, and an ASCII byte that is not a capital letter. *)
Definition asciiByte (c : ascii) : bool := Go.byte_val c <? 128.

Definition lowerByte (c : ascii) : bool :=
  asciiByte c && negb (Go.isAZ c).

(** A string of ASCII bytes none of which is a capital letter. *)
Definition isLowerASCII (s : string) : bool :=
  forallb lowerByte (list_ascii_of_string s).

End Label.

(** ** What an imported package satisfies *)

Module Imported.

(** The checks of [ImportFromConfig] after the decoding: a name, a label
    and at least one template or plugin. *)
Definition valid (c : Package.Package) : Prop :=
  Package.Name c <> ""
  /\ Package.Label c <> ""
  /\ Package.isEmpty c = false.

(** A template of a tree entry that the filter [templates/] keeps: its
    destination has the ten bytes that the inner loop cuts off. *)
Definition cuttable (t : Template) : Prop :=
  Package.kept [Package.rexTemplates] (Destination t) = true.

(** The state after one call of [LoadTreeEntries]. *)
Definition loaded {World : Type} `{Package.Platform World}
    (st : Package.state World) : Package.state World :=
  let '(_, imp, w) :=
    Package.LoadTreeEntries (Package.importer st) (Package.world st) in
  Package.mkState imp w.

End Imported.

(** ** The calls of a materialization *)

Module Trace.

Import Project.

Section Trace.

Context {World : Type} `{OS World}.

(** The calls of the step of [createFilesAndFolders] for one template:
    the copy when the template has a path, then the file or the folder. *)
Definition templateEvents (templatePath : string) (template : Template)
    : list event :=
  ((if (0 <? String.length (Path template))%nat
    then [EvCopy (filepath_Join [templatePath; "/"; Path template])
            (Destination template)]
    else [])
   ++ [if IsFile template then EvCreate (Destination template)
       else EvMkdirAll (Destination template)])%list.

(** The call into the environment that an event records. *)
Definition perform (ev : event) : World -> option Err * World :=
  match ev with
  | EvMkdir name => os_Mkdir name
  | EvChdir dir => os_Chdir dir
  | EvCopy src dst => copy_Copy src dst
  | EvCreate name => os_Create name
  | EvMkdirAll path => os_MkdirAll path
  | EvRun pluginPath => cmd_Run pluginPath
  end.

(** The calls of a list made one after the other, each on the state the
    one before left and each recorded in the log, up to the first that
    fails: its error is returned and no later call is made.  The result
    is nil when every call succeeded. *)
Fixpoint performAll (calls : list event) (s : state World)
    : result unit * state World :=
  match calls with
  | [] => (Ok tt, s)
  | ev :: rest =>
      match perform ev (world s) with
      | (Some e, w) => (Fail e, mkState w (log s ++ [ev])%list)
      | (None, w) => performAll rest (mkState w (log s ++ [ev])%list)
      end
  end.

(** The calls of the three phases of [Create] when nothing fails. *)
Definition phaseEvents (p : Project) (configPath : string) : list event :=
  (runs configPath (List.filter isPre (Plugins (class p)))
   ++ flat_map (templateEvents (filepath_Join [configPath; "/templates/"]))
        (Templates (class p))
   ++ runs configPath (List.filter isPost (Plugins (class p))))%list.

End Trace.

End Trace.

(** * Properties *)

(** ** Strings *)

Lemma append_assoc (a b c : string) : (a ++ b) ++ c = a ++ (b ++ c).
Proof.
  induction a as [|x a IH]; [reflexivity|].
  change (String x ((a ++ b) ++ c) = String x (a ++ b ++ c)). now f_equal.
Qed.

Lemma append_nil_r (a : string) : a ++ "" = a.
Proof.
  induction a as [|x a IH]; [reflexivity|].
  change (String x (a ++ "") = String x a). now f_equal.
Qed.

Lemma length_append (a b : string) :
  String.length (a ++ b) = (String.length a + String.length b)%nat.
Proof.
  induction a as [|x a IH]; [reflexivity|].
  change (S (String.length (a ++ b)) = S (String.length a + String.length b)).
  now f_equal.
Qed.

(** ** The label of a package *)

Section PickLabelProps.

Import Package.

Variable mapLower : string -> string.

(** C3, as the code has it: the label of "my-cool-app" and of "MyCoolApp"
    is "mca" and the label of "x" is "x"; the label of "ab" is "abb", its
    first, middle and last byte, since a name of two letters with no
    separator and no inner capital is not returned as it is. *)
Theorem pickLabel_examples :
  pickLabel mapLower "my-cool-app" = Some "mca"
  /\ pickLabel mapLower "MyCoolApp" = Some "mca"
  /\ pickLabel mapLower "ab" = Some "abb"
  /\ pickLabel mapLower "x" = Some "x".
Proof. repeat split; reflexivity. Qed.

Lemma firstBytes_None i parts label :
  firstBytes i parts label = None -> In "" parts.
Proof.
  revert i label; induction parts as [|part rest IH]; intros i label; simpl.
  - discriminate.
  - destruct (maxLabelLen <? i)%nat; [discriminate|].
    destruct part as [|c part]; simpl; [now left|].
    intros Hn. right. exact (IH _ _ Hn).
Qed.

Lemma append_not_empty (r : string) c : r ++ String c "" <> "".
Proof. destruct r; discriminate. Qed.

(** A match of [[A-Z][^A-Z]*] is not empty. *)
Lemma upper_runs_not_empty cur s :
  cur <> Some "" -> ~ In "" (Go.upper_runs cur s).
Proof.
  revert cur; induction s as [|c s IH]; intros cur Hc; simpl.
  - destruct cur as [r|]; simpl; [|tauto].
    intros [Hr | []]. apply Hc. now f_equal.
  - destruct (Go.isAZ c).
    + intros Hin. apply in_app_or in Hin. destruct Hin as [Hin|Hin].
      * destruct cur as [r|]; simpl in Hin; [|tauto].
        destruct Hin as [Hr | []]. apply Hc. now f_equal.
      * revert Hin. apply IH. discriminate.
    + apply IH. destruct cur as [r|]; simpl; [|discriminate].
      intros [= Hr]. now apply append_not_empty in Hr.
Qed.

Lemma index_in_range s i :
  (i < String.length s)%nat -> Go.index s i <> None.
Proof.
  unfold Go.index. revert i; induction s as [|c s IH]; intros i; simpl.
  - lia.
  - destruct i as [|i]; [discriminate|]. intros Hi. apply IH. lia.
Qed.

Lemma length_whole s :
  String.length (String.substring 0 (String.length s) s) = String.length s.
Proof. induction s as [|x s IH]; simpl; [reflexivity | now f_equal]. Qed.

(** The only panic of [pickLabel] is the one of [part[0]] on an empty
    part of the split by a separator: the first, middle and last byte of
    the name are in range, and so is the first byte of every run that
    starts with a capital. *)
Lemma pickLabel_None_empty_part packageName :
  pickLabel mapLower packageName = None ->
  In "" (splitBySeparators labelSeparators packageName []).
Proof.
  unfold pickLabel.
  destruct (String.length packageName <? 2)%nat eqn:Hlen; [discriminate|].
  apply Nat.ltb_ge in Hlen.
  destruct (1 <? length (splitBySeparators labelSeparators packageName []))%nat.
  { destruct (firstBytes 0 _ "") eqn:Hf; [discriminate|].
    intros _. exact (firstBytes_None _ _ _ Hf). }
  destruct packageName as [|c0 tl]; [simpl in Hlen; lia|].
  remember (String.length (String c0 tl)) as n eqn:Hn.
  pose proof (Nat.div_lt n 2) as Hmid.
  remember (n / 2)%nat as mid eqn:Hm. clear Hm.
  simpl Go.index. cbv iota. intros Hnone. exfalso. revert Hnone.
  set (name1 := if negb (Go.IsUpper (Go.byte_val c0)) then _ else _).
  assert (Hname : exists s, name1 = Some s /\ (n <= String.length s)%nat).
  { subst name1. destruct (negb (Go.IsUpper (Go.byte_val c0))).
    - unfold Go.slice_from. simpl (1 <=? _)%nat. simpl (_ - 1)%nat.
      rewrite Nat.sub_0_r. simpl mbind. eexists. split; [reflexivity|].
      rewrite length_append, length_whole. unfold Go.string_of_byte.
      subst n. destruct (_ <? 128); simpl; lia.
    - eexists. split; [reflexivity | lia]. }
  destruct Hname as [s [-> Hs]]. simpl mbind.
  destruct (1 <? length (Go.FindAllString_upper s))%nat.
  { destruct (firstBytes 0 _ "") eqn:Hf; [discriminate|].
    apply firstBytes_None in Hf. exfalso. revert Hf.
    apply upper_runs_not_empty. discriminate. }
  destruct (Go.index s 0) eqn:H0;
    [|exfalso; revert H0; apply index_in_range; lia].
  destruct (Go.index s mid) eqn:H1;
    [|exfalso; revert H1; apply index_in_range; lia].
  destruct (Go.index s (n - 1)) eqn:H2;
    [|exfalso; revert H2; apply index_in_range; lia].
  simpl mbind. discriminate.
Qed.

(** C4 at the name "a-": the split on "-" has an empty second part, and
    [part[0]] on it is out of range. *)
Theorem pickLabel_panics_on_empty_part :
  Go.Split "a-" "-" = ["a"; ""] /\ pickLabel mapLower "a-" = None.
Proof. split; reflexivity. Qed.

End PickLabelProps.

(** C3 as the specification states it does not hold: whatever the Unicode
    tables are, the label of "ab" is not "ab". *)
Lemma pickLabel_ab_is_not_ab :
  ~ (exists mapLower, Package.pickLabel mapLower "ab" = Some "ab").
Proof. intros [m Hm]. vm_compute in Hm. discriminate. Qed.

(** ** The conversion of tree entries *)

Module TreeProps.

Import Package.

Lemma skipEntry_true filters path :
  skipEntry filters path true = negb (existsb (fun re => re path) filters).
Proof.
  induction filters as [|re rest IH]; simpl; [reflexivity|].
  destruct (re path); simpl; [reflexivity | exact IH].
Qed.

Lemma skipEntry_kept filters path :
  skipEntry filters path false = negb (kept filters path).
Proof.
  destruct filters as [|re rest]; simpl; [reflexivity|].
  destruct (re path); simpl; [reflexivity | apply skipEntry_true].
Qed.

Lemma convertGH_acc entries filters acc :
  convertGHTreeEntries entries filters acc
  = (acc ++ map (fun e => templateOf (GetPath e) (GetType e))
              (List.filter (fun e => kept filters (GetPath e)) entries))%list.
Proof.
  revert acc; induction entries as [|e rest IH]; intros acc; simpl.
  - now rewrite app_nil_r.
  - rewrite skipEntry_kept. destruct (kept filters (GetPath e)); simpl.
    + rewrite IH, <- app_assoc. reflexivity.
    + apply IH.
Qed.

Lemma convertGL_acc entries filters acc :
  convertGLTreeEntries entries filters acc
  = (acc ++ map (fun e => templateOf (glPath e) (glType e))
              (List.filter (fun e => kept filters (glPath e)) entries))%list.
Proof.
  revert acc; induction entries as [|e rest IH]; intros acc; simpl.
  - now rewrite app_nil_r.
  - rewrite skipEntry_kept. destruct (kept filters (glPath e)); simpl.
    + rewrite IH, <- app_assoc. reflexivity.
    + apply IH.
Qed.

(** C7: both conversions return, in the order of the input, the template
    of every entry that is kept and nothing else; a template is a file
    exactly when the type of its entry is "blob", its path is empty and
    its destination is the path of the entry; with no filter the output
    is as long as the input. *)
Theorem filterAndConvert_spec (filters : list Regexp)
    (gh : list (option GHTreeEntry)) (gl : list GLTreeNode) :
  filterAndConvertGHTreeEntries gh filters
  = map (fun e => templateOf (GetPath e) (GetType e))
      (List.filter (fun e => kept filters (GetPath e)) gh)
  /\ filterAndConvertGLTreeEntries gl filters
     = map (fun e => templateOf (glPath e) (glType e))
         (List.filter (fun e => kept filters (glPath e)) gl)
  /\ (forall path,
        kept filters path = true
        <-> filters = [] \/ exists re, In re filters /\ re path = true)
  /\ (forall path type,
        (IsFile (templateOf path type) = true <-> type = "blob")
        /\ Path (templateOf path type) = ""
        /\ Destination (templateOf path type) = path)
  /\ length (filterAndConvertGHTreeEntries gh []) = length gh
  /\ length (filterAndConvertGLTreeEntries gl []) = length gl.
Proof.
  unfold filterAndConvertGHTreeEntries, filterAndConvertGLTreeEntries.
  rewrite !convertGH_acc, !convertGL_acc. simpl.
  repeat split.
  - destruct filters as [|re rest]; [now left|].
    intros Hk. right. apply existsb_exists in Hk. exact Hk.
  - intros [-> | Hex]; [reflexivity|].
    destruct filters as [|re rest]; [reflexivity|].
    apply existsb_exists. exact Hex.
  - apply String.eqb_eq.
  - apply String.eqb_eq.
  - rewrite length_map. f_equal. clear. induction gh; simpl; congruence.
  - rewrite length_map. f_equal. clear. induction gl; simpl; congruence.
Qed.

(** Every template the conversion returns has an empty [Path]. *)
Lemma converted_Path importer filters :
  Forall (fun t => Path t = EmptyString)
    (filterAndConvertTreeEntries importer filters).
Proof.
  destruct importer as [gh|gl|]; simpl.
  - unfold filterAndConvertGHTreeEntries. rewrite convertGH_acc. simpl.
    apply List.Forall_forall. intros t Ht. apply in_map_iff in Ht.
    destruct Ht as [e [<- _]]. reflexivity.
  - unfold filterAndConvertGLTreeEntries. rewrite convertGL_acc. simpl.
    apply List.Forall_forall. intros t Ht. apply in_map_iff in Ht.
    destruct Ht as [e [<- _]]. reflexivity.
  - constructor.
Qed.

End TreeProps.

(** ** Materialization *)

Module ProjectProps.

Import Project Trace.

Section Phases.

Context {World : Type} `{OS World}.

Lemma performAll_app calls1 calls2 (s : state World) :
  performAll (calls1 ++ calls2) s
  = andThen (performAll calls1) (performAll calls2) s.
Proof.
  revert s; induction calls1 as [|ev rest IH]; intros s; [reflexivity|].
  unfold andThen in *. simpl.
  destruct (perform ev (world s)) as [[e|] w]; [reflexivity | apply IH].
Qed.

Lemma performAll_no_panic calls (s : state World) :
  (performAll calls s).1 <> Panic.
Proof.
  revert s; induction calls as [|ev rest IH]; intros s; simpl;
    [discriminate|].
  destruct (perform ev (world s)) as [[e|] w]; [discriminate | apply IH].
Qed.

Lemma call_performs ev (s : state World) :
  call ev (perform ev) s = performAll [ev] s.
Proof.
  unfold call. simpl. destruct (perform ev (world s)) as [[e|] w];
    reflexivity.
Qed.

Lemma andThen_performs (m k : M (World := World)) calls1 calls2 :
  (forall s, m s = performAll calls1 s) ->
  (forall s, k s = performAll calls2 s) ->
  forall s, andThen m k s = performAll (calls1 ++ calls2) s.
Proof.
  intros Hm Hk s. rewrite performAll_app. unfold andThen. rewrite Hm.
  destruct (performAll calls1 s) as [[[]|e|] s1]; auto.
Qed.

Lemma preRunLoop_performs configPath plugins (s : state World) :
  preRunLoop configPath plugins s
  = performAll (runs configPath (List.filter isPre plugins)) s.
Proof.
  revert s; induction plugins as [|plugin rest IH]; intros s;
    [reflexivity|].
  simpl. unfold isPre at 1. destruct (ExecNumber plugin <? 0) eqn:Hn.
  - replace (ExecNumber plugin >=? 0) with false by lia.
    apply (andThen_performs _ _ [EvRun (pluginPathOf configPath plugin)]);
      [intros s1; apply (call_performs (EvRun _)) | exact IH].
  - replace (ExecNumber plugin >=? 0) with true by lia. apply IH.
Qed.

Lemma postRunLoop_performs configPath plugins (s : state World) :
  postRunLoop configPath plugins s
  = performAll (runs configPath (List.filter isPost plugins)) s.
Proof.
  revert s; induction plugins as [|plugin rest IH]; intros s;
    [reflexivity|].
  simpl. unfold isPost at 1. destruct (0 <? ExecNumber plugin) eqn:Hn.
  - replace (ExecNumber plugin <=? 0) with false by lia.
    apply (andThen_performs _ _ [EvRun (pluginPathOf configPath plugin)]);
      [intros s1; apply (call_performs (EvRun _)) | exact IH].
  - replace (ExecNumber plugin <=? 0) with true by lia. apply IH.
Qed.

Lemma writeTemplate_performs templatePath template (s : state World) :
  writeTemplate templatePath template s
  = performAll (templateEvents templatePath template) s.
Proof.
  unfold writeTemplate, templateEvents. apply andThen_performs.
  - destruct (0 <? String.length (Path template))%nat;
      [intros s1; apply (call_performs (EvCopy _ _)) | reflexivity].
  - destruct (IsFile template); intros s1;
      [apply (call_performs (EvCreate _))
      | apply (call_performs (EvMkdirAll _))].
Qed.

Lemma writeTemplates_performs templatePath templates (s : state World) :
  writeTemplates templatePath templates s
  = performAll (flat_map (templateEvents templatePath) templates) s.
Proof.
  revert s; induction templates as [|template rest IH]; intros s;
    [reflexivity|].
  simpl. apply andThen_performs;
    [apply writeTemplate_performs | exact IH].
Qed.

Lemma phases_performs p configPath (s : state World) :
  phases p configPath s = performAll (phaseEvents p configPath) s.
Proof.
  unfold phases, phaseEvents. apply andThen_performs.
  - apply preRunLoop_performs.
  - apply andThen_performs;
      [apply writeTemplates_performs | apply postRunLoop_performs].
Qed.

(** C5: the pre-hook phase makes the calls of running the plugins with a
    negative [ExecNumber], and of no others, in the order the package
    stores them; the post-hook phase those of the plugins with a
    positive [ExecNumber], and of no others, in stored order as well.
    Each plugin is run on the state the one before left, a plugin that
    fails ends the phase with its error, and the phase returns nil when
    every plugin succeeded.  A plugin whose [ExecNumber] is 0 is among
    neither. *)
Theorem hooks_by_sign_in_stored_order (p : Project) (configPath : string)
    (s : state World) :
  preRunPlugins p configPath s
  = performAll (runs configPath (List.filter isPre (Plugins (class p)))) s
  /\ postRunPlugins p configPath s
     = performAll (runs configPath (List.filter isPost (Plugins (class p))))
         s
  /\ (forall plugin,
        In plugin (List.filter isPre (Plugins (class p)))
        <-> In plugin (Plugins (class p)) /\ ExecNumber plugin < 0)
  /\ (forall plugin,
        In plugin (List.filter isPost (Plugins (class p)))
        <-> In plugin (Plugins (class p)) /\ 0 < ExecNumber plugin).
Proof.
  split; [apply preRunLoop_performs|].
  split; [apply postRunLoop_performs|].
  split; intros plugin; rewrite filter_In; unfold isPre, isPost;
    split; intros [Hin Hn]; (split; [exact Hin | lia]).
Qed.

End Phases.

Section CreateProps.

Context {World : Type} `{OS World}.

Lemma safe_ret : safe (World := World) ret.
Proof. intros s. discriminate. Qed.

Lemma safe_call ev (op : World -> option Err * World) : safe (call ev op).
Proof.
  intros s. unfold call. destruct (op (world s)) as [[e|] w]; discriminate.
Qed.

Lemma safe_andThen (m k : M (World := World)) :
  safe m -> safe k -> safe (andThen m k).
Proof.
  intros Hm Hk s. unfold andThen. specialize (Hm s).
  destruct (m s) as [[[]|e|] s1]; simpl in *;
    [apply Hk | discriminate | congruence].
Qed.

Lemma safe_defer (d body : M (World := World)) :
  safe body -> safe (defer d body).
Proof.
  intros Hb s. unfold defer. specialize (Hb s).
  destruct (body s) as [r s1]. destruct (d s1) as [r' s2]. exact Hb.
Qed.

Create HintDb safe.
#[local] Hint Resolve safe_ret safe_call safe_andThen safe_defer : safe.

Lemma safe_preRunLoop configPath plugins : safe (preRunLoop configPath plugins).
Proof.
  induction plugins as [|plugin rest IH]; simpl; [auto with safe|].
  destruct (ExecNumber plugin >=? 0); unfold runPlugin; auto with safe.
Qed.

Lemma safe_postRunLoop configPath plugins :
  safe (postRunLoop configPath plugins).
Proof.
  induction plugins as [|plugin rest IH]; simpl; [auto with safe|].
  destruct (ExecNumber plugin <=? 0); unfold runPlugin; auto with safe.
Qed.

Lemma safe_writeTemplates templatePath templates :
  safe (writeTemplates templatePath templates).
Proof.
  induction templates as [|template rest IH]; simpl; [auto with safe|].
  apply safe_andThen; [|exact IH]. unfold writeTemplate.
  destruct (0 <? String.length (Path template))%nat, (IsFile template);
    auto with safe.
Qed.

Lemma safe_phases p configPath : safe (phases p configPath).
Proof.
  unfold phases, preRunPlugins, createFilesAndFolders, postRunPlugins.
  auto using safe_andThen, safe_preRunLoop, safe_postRunLoop,
    safe_writeTemplates.
Qed.

Lemma normalizeCwd_None cwd : normalizeCwd cwd = None <-> cwd = "".
Proof.
  unfold normalizeCwd, Go.slice_to. destruct cwd as [|c cwd].
  - simpl. tauto.
  - replace ((0 <=? Z.of_nat (String.length (String c cwd)) - 1)
             && (Z.of_nat (String.length (String c cwd)) - 1
                 <=? Z.of_nat (String.length (String c cwd)))) with true.
    + simpl. split; discriminate.
    + symmetry. rewrite andb_true_iff, !Z.leb_le. simpl String.length. lia.
Qed.

(** [Create] once the project folder is made and entered. *)
Lemma Create_entered p cwd configPath (s : state World) w1 w2 :
  os_Mkdir (Name p) (world s) = (None, w1) ->
  os_Chdir (Name p) w1 = (None, w2) ->
  Create p cwd configPath s
  = match normalizeCwd cwd with
    | None => panic
    | Some cwd =>
        defer (call (EvChdir cwd) (os_Chdir cwd)) (phases p configPath)
    end (mkState w2 (log s ++ [EvMkdir (Name p); EvChdir (Name p)])%list).
Proof.
  intros Hmk Hcd. unfold Create, createProjectFolder, andThen, call.
  rewrite Hmk. simpl. rewrite Hcd. simpl. rewrite <- app_assoc. reflexivity.
Qed.

(** With a non-empty [cwd], [Create] returns what its phases return, and
    the last call it makes is the change of directory back to [cwd]. *)
Lemma Create_restores p cwd configPath (s : state World) w1 w2 :
  os_Mkdir (Name p) (world s) = (None, w1) ->
  os_Chdir (Name p) w1 = (None, w2) ->
  cwd <> "" ->
  exists back r s1,
    normalizeCwd cwd = Some back
    /\ phases p configPath
         (mkState w2 (log s ++ [EvMkdir (Name p); EvChdir (Name p)])%list)
       = (r, s1)
    /\ r <> Panic
    /\ Create p cwd configPath s
       = (r, mkState (os_Chdir back (world s1)).2
               (log s1 ++ [EvChdir back])%list).
Proof.
  intros Hmk Hcd Hne. rewrite (Create_entered _ _ _ _ _ _ Hmk Hcd).
  destruct (normalizeCwd cwd) as [back|] eqn:Hn;
    [|now apply normalizeCwd_None in Hn].
  pose proof (safe_phases p configPath
    (mkState w2 (log s ++ [EvMkdir (Name p); EvChdir (Name p)])%list)) as Hs.
  destruct (phases p configPath _) as [r s1] eqn:Hp.
  exists back, r, s1. repeat split; [exact Hs|].
  unfold defer. rewrite Hp. unfold call.
  destruct (os_Chdir back (world s1)) as [e w]. reflexivity.
Qed.

(** C9: once the project folder is made and entered, the slice
    [cwd[:len(cwd)-1]] is in bounds exactly when [cwd] is not empty and
    [Create] panics exactly when [cwd] is empty; it then stops in the
    project folder, with no change of directory after the one into it. *)
Theorem Create_panics_iff_cwd_empty p cwd configPath (s : state World) w1 w2 :
  os_Mkdir (Name p) (world s) = (None, w1) ->
  os_Chdir (Name p) w1 = (None, w2) ->
  (normalizeCwd cwd = None <-> cwd = "")
  /\ ((Create p cwd configPath s).1 = Panic <-> cwd = "")
  /\ (cwd = ""
      -> (Create p cwd configPath s).2
         = mkState w2 (log s ++ [EvMkdir (Name p); EvChdir (Name p)])%list).
Proof.
  intros Hmk Hcd. split; [apply normalizeCwd_None|].
  rewrite (Create_entered _ _ _ _ _ _ Hmk Hcd).
  destruct (normalizeCwd cwd) as [back|] eqn:Hn.
  - assert (Hne : cwd <> "").
    { intros Hc. apply normalizeCwd_None in Hc. congruence. }
    split; [|intros Hc; contradiction].
    split; [|intros Hc; contradiction].
    intros Hp. exfalso. revert Hp. apply safe_defer, safe_phases.
  - apply normalizeCwd_None in Hn. subst cwd. simpl. split; [tauto|]. auto.
Qed.

(** C6: once the project folder is made and entered, [Create] with a
    [cwd] that is not empty returns what its three phases return, nil or
    the error of the call that failed, and in either case its last call
    is the change of directory to [cwd], made on the state the phases
    left: [cwd] as given or with a slash appended.  Under the documented
    behaviour of [os.Chdir], the process is in that directory when
    [Create] returns, provided this last call succeeds. *)
Theorem Create_restores_cwd (getwd : World -> string)
    (Chdir_enters :
       forall dir w w', os_Chdir dir w = (None, w') -> getwd w' = dir)
    p cwd configPath (s : state World) w1 w2 :
  os_Mkdir (Name p) (world s) = (None, w1) ->
  os_Chdir (Name p) w1 = (None, w2) ->
  cwd <> "" ->
  exists back r s1,
    normalizeCwd cwd = Some back
    /\ (back = cwd \/ back = cwd ++ "/")
    /\ performAll (phaseEvents p configPath)
         (mkState w2 (log s ++ [EvMkdir (Name p); EvChdir (Name p)])%list)
       = (r, s1)
    /\ Create p cwd configPath s
       = (r, mkState (os_Chdir back (world s1)).2
               (log s1 ++ [EvChdir back])%list)
    /\ r <> Panic
    /\ ((os_Chdir back (world s1)).1 = None ->
        getwd (world (Create p cwd configPath s).2) = back).
Proof.
  intros Hmk Hcd Hne.
  destruct (Create_restores p cwd configPath s w1 w2 Hmk Hcd Hne)
    as [back [r [s1 [Hn [Hph [Hr Hc]]]]]].
  exists back, r, s1. split; [exact Hn|]. split.
  { unfold normalizeCwd in Hn.
    destruct (Go.slice_to cwd _) as [head|]; [|discriminate].
    simpl in Hn. injection Hn as <-.
    destruct (negb (String.eqb head "/")); auto. }
  split; [now rewrite <- phases_performs|]. split; [exact Hc|].
  split; [exact Hr|]. rewrite Hc. simpl. intros Hok.
  destruct (os_Chdir back (world s1)) as [e w3] eqn:Hback. simpl in *.
  subst e. exact (Chdir_enters back (world s1) w3 Hback).
Qed.

End CreateProps.

Section Truncation.

Context {World : Type} `{OS World}.

(** The content of the file at a path, and what [os.Create] is documented
    to do: it creates the named file or truncates it. *)
Variable readFile : World -> string -> option string.

Hypothesis os_Create_truncates :
  forall name w w',
    os_Create name w = (None, w') -> readFile w' name = Some "".

Lemma writeTemplates_app templatePath l1 l2 (s : state World) :
  writeTemplates templatePath (l1 ++ l2) s
  = andThen (writeTemplates templatePath l1) (writeTemplates templatePath l2) s.
Proof.
  revert s; induction l1 as [|t l1 IH]; intros s; simpl.
  - reflexivity.
  - unfold andThen at 1 2 3.
    destruct (writeTemplate templatePath t s) as [[[]|e|] s1];
      [apply IH | reflexivity | reflexivity].
Qed.

Lemma writeTemplate_file templatePath template (s s1 : state World) :
  IsFile template = true ->
  writeTemplate templatePath template s = (Ok tt, s1) ->
  readFile (world s1) (Destination template) = Some ""
  /\ log s1 = (log s ++ fileEvents templatePath template)%list.
Proof.
  intros Hf. unfold writeTemplate, fileEvents, andThen. rewrite Hf.
  destruct (0 <? String.length (Path template))%nat; unfold call, ret.
  - destruct (copy_Copy _ _ (world s)) as [[e|] w]; [discriminate|].
    simpl. destruct (os_Create _ w) as [[e|] w'] eqn:Hc; [discriminate|].
    intros [= <-]. simpl. split; [eapply os_Create_truncates, Hc|].
    now rewrite <- app_assoc.
  - destruct (os_Create _ (world s)) as [[e|] w'] eqn:Hc; [discriminate|].
    intros [= <-]. simpl. split; [eapply os_Create_truncates, Hc|].
    reflexivity.
Qed.

(** C10: when the loop of [createFilesAndFolders] has completed the step
    of a template that is a file, the last calls it has made are the copy
    into [Destination], if the template has a [Path], and then
    [os.Create(Destination)]; the file at [Destination] is empty, copied
    or not; and the loop goes on with the templates that follow. *)
Theorem file_template_ends_empty (p : Project) (configPath : string)
    (before after : list Template) (template : Template)
    (s s1 : state World) :
  Templates (class p) = (before ++ template :: after)%list ->
  IsFile template = true ->
  writeTemplates (filepath_Join [configPath; "/templates/"])
    (before ++ [template]) s = (Ok tt, s1) ->
  readFile (world s1) (Destination template) = Some ""
  /\ (exists l,
        log s1
        = (l ++ fileEvents (filepath_Join [configPath; "/templates/"])
                  template)%list)
  /\ createFilesAndFolders p configPath s
     = writeTemplates (filepath_Join [configPath; "/templates/"]) after s1.
Proof.
  intros Hts Hf Hrun. unfold createFilesAndFolders. rewrite Hts.
  replace (before ++ template :: after)%list
    with ((before ++ [template]) ++ after)%list
    by (rewrite <- app_assoc; reflexivity).
  rewrite (writeTemplates_app _ (before ++ [template])).
  unfold andThen at 1. rewrite Hrun.
  rewrite writeTemplates_app in Hrun. unfold andThen in Hrun.
  destruct (writeTemplates _ before s) as [[[]|e|] s0]; try discriminate.
  simpl in Hrun. unfold andThen in Hrun.
  destruct (writeTemplate _ template s0) as [[[]|e|] s2] eqn:Hw;
    try discriminate.
  unfold ret in Hrun. injection Hrun as <-.
  destruct (writeTemplate_file _ _ _ _ Hf Hw) as [Hread Hlog].
  repeat split; [exact Hread | exists (log s0); exact Hlog].
Qed.

End Truncation.

End ProjectProps.

(** ** Materialization on the sample process *)

Module ProjectRuns.

Import Project ProjectProps.

Lemma sample_create_truncates name w w' :
  os_Create name w = (None, w') -> Sample.readFile w' name = Some "".
Proof.
  simpl. unfold Sample.create, Sample.readFile. intros [= <-]. simpl.
  apply lookup_insert_eq.
Qed.

(** A run with an empty [cwd]: the project folder is made and entered,
    the slice of [cwd] panics, and the process is left in the project
    folder "app": no change of directory follows the one into the
    project. *)
Example Create_empty_cwd_not_restored :
  Sample.workdir (world Sample.start) = "/home/u"
  /\ (Create Sample.goProject "" "/cfg" Sample.start).1 = Panic
  /\ Sample.workdir
       (world (Create Sample.goProject "" "/cfg" Sample.start).2) = "app"
  /\ log (Create Sample.goProject "" "/cfg" Sample.start).2
     = [EvMkdir "app"; EvChdir "app"].
Proof. vm_compute. repeat split. Qed.

(** The same run with the working directory as [cwd]: every phase
    succeeds and the last call changes back to it. *)
Example Create_sample_run :
  (Create Sample.goProject "/home/u" "/cfg" Sample.start).1 = Ok tt
  /\ Sample.workdir
       (world (Create Sample.goProject "/home/u" "/cfg" Sample.start).2)
     = "/home/u/"
  /\ log (Create Sample.goProject "/home/u" "/cfg" Sample.start).2
     = [EvMkdir "app"; EvChdir "app"; EvRun "/cfg/plugins/init";
        EvCopy "/cfg/templates/main.go" "main.go"; EvCreate "main.go";
        EvRun "/cfg/plugins/done"; EvChdir "/home/u/"]
  /\ Sample.readFile
       (world (Create Sample.goProject "/home/u" "/cfg" Sample.start).2)
       "main.go" = Some "".
Proof. vm_compute. repeat split. Qed.

Lemma Create_panics_iff_cwd_empty_witness :
  (normalizeCwd "" = None <-> "" = "")
  /\ ((Create Sample.goProject "" "/cfg" Sample.start).1 = Panic <-> "" = "")
  /\ ("" = ""
      -> (Create Sample.goProject "" "/cfg" Sample.start).2
         = mkState (Sample.mkProcess "app" ["app"] (Sample.files Sample.store))
             ([] ++ [EvMkdir "app"; EvChdir "app"])%list).
Proof.
  apply (Create_panics_iff_cwd_empty Sample.goProject "" "/cfg" Sample.start
           (Sample.mkProcess "/home/u" ["app"] (Sample.files Sample.store)));
    reflexivity.
Defined.

Lemma file_template_ends_empty_witness :
  Sample.readFile
    (world (writeTemplates (filepath_Join ["/cfg"; "/templates/"])
              (Templates (class Sample.goProject)) Sample.start).2)
    "main.go" = Some ""
  /\ Sample.readFile (world Sample.start) "/cfg/templates/main.go"
     = Some "package main".
Proof.
  split; [|reflexivity].
  apply (file_template_ends_empty Sample.readFile sample_create_truncates
           Sample.goProject "/cfg" [] []
           (mkTemplate true "main.go" "main.go" EmptyString) Sample.start);
    reflexivity.
Defined.

Lemma sample_chdir_enters dir w w' :
  os_Chdir dir w = (None, w') -> Sample.workdir w' = dir.
Proof.
  simpl. unfold Sample.chdir. intros [= <-]. reflexivity.
Qed.

Lemma Create_restores_cwd_witness :
  (Create Sample.failing "/home/u" "/cfg" Sample.start).1
  = Fail "exit status 1"
  /\ Sample.workdir
       (world (Create Sample.failing "/home/u" "/cfg" Sample.start).2)
     = "/home/u/".
Proof.
  split; [vm_compute; reflexivity|].
  destruct (Create_restores_cwd Sample.workdir sample_chdir_enters
              Sample.failing "/home/u" "/cfg" Sample.start
              (Sample.mkProcess "/home/u" ["app"] (Sample.files Sample.store))
              (Sample.mkProcess "app" ["app"] (Sample.files Sample.store)))
    as [back [r [s1 [Hn [_ [_ [_ [_ Hwd]]]]]]]];
    [reflexivity | reflexivity | discriminate|].
  rewrite (Hwd eq_refl). vm_compute in Hn. now injection Hn as <-.
Defined.

End ProjectRuns.

(** ** Fan-out and join *)

Module FanOutProps.

Import FanOut.

Section Runs.

Context {State Task Out : Type}.
Variable body : Task -> State -> Task + Out -> State -> Prop.
Variable chan : Out -> option nat.
Variable cap : nat.

Abbreviation step := (step body chan cap).
Abbreviation reachable := (reachable body chan cap).

(** The counter went down by one for each goroutine that has ended, and
    each goroutine launched is running or has ended. *)
Lemma reachable_count n ts s p :
  reachable n ts s p ->
  wg p = n - Z.of_nat (length (sent p))
  /\ (length (running p) + length (sent p) = length ts)%nat.
Proof.
  unfold FanOut.reachable. revert p. apply rtc_ind_r.
  - simpl. lia.
  - intros p1 p2 _ Hs [Hwg Hlen].
    destruct Hs
      as [pre t post m s1 t' s2 out Hb|pre t post m s1 o s2 out Hb Hc];
      simpl in *; rewrite ?length_app in *; simpl in *; lia.
Qed.

Lemma buffered_le k out : (buffered chan k out <= length out)%nat.
Proof.
  unfold buffered. induction out as [|o out IH]; simpl; [lia|].
  destruct (chan o) as [k'|]; [destruct (k' =? k)%nat|]; simpl; lia.
Qed.

(** [Wait] returns exactly when no goroutine is left, provided the
    counter was set to the number of goroutines. *)
Lemma released_iff_all_done ts s p :
  reachable (Z.of_nat (length ts)) ts s p ->
  released p <-> running p = [].
Proof.
  intros Hr. destruct (reachable_count _ _ _ _ Hr) as [Hwg Hlen].
  unfold released. rewrite Hwg. split.
  - intros Hz. apply length_zero_iff_nil. lia.
  - intros Hnil. rewrite Hnil in Hlen. simpl in Hlen. lia.
Qed.

(** [Wait] never returns when the counter was set to more than the
    number of goroutines. *)
Lemma never_released n ts s p :
  Z.of_nat (length ts) < n -> reachable n ts s p -> ~ released p.
Proof.
  intros Hlt Hr. destruct (reachable_count _ _ _ _ Hr) as [Hwg Hlen].
  unfold released. lia.
Qed.

(** No send blocks when the channels have room for one value per
    goroutine, so a goroutine that is left can always make a step,
    whatever the others did. *)
Lemma progress n ts s p :
  (forall t s, exists x s', body t s x s') ->
  (length ts <= cap)%nat ->
  reachable n ts s p ->
  running p <> [] ->
  exists p', step p p'.
Proof.
  intros Htot Hcap Hr Hne.
  destruct (reachable_count _ _ _ _ Hr) as [_ Hlen].
  destruct p as [m run sh out]. simpl in *.
  destruct run as [|t rest]; [contradiction|].
  destruct (Htot t sh) as [[t'|o] [sh' Hb]].
  - exists (mkPool m ([] ++ t' :: rest) sh' out).
    exact (step_move body chan cap [] t rest m sh t' sh' out Hb).
  - exists (mkPool (m - 1) ([] ++ rest) sh' (out ++ [o])).
    apply (step_done body chan cap [] t rest m sh o sh' out Hb).
    intros k _. pose proof (buffered_le k out). simpl in Hlen. lia.
Qed.

(** Each step uses up one of the steps the goroutines can make. *)
Lemma step_weight cost p p' :
  (forall t s t' s', body t s (inl t') s' -> (cost t' < cost t)%nat) ->
  step p p' -> (weight cost p' < weight cost p)%nat.
Proof.
  intros Hcost Hs. unfold weight.
  destruct Hs as [pre t post m s1 t' s2 out Hb|pre t post m s1 o s2 out Hb Hc];
    simpl; rewrite !map_app, !list_sum_app; simpl.
  - apply Hcost in Hb. lia.
  - lia.
Qed.

(** Hence every run can be carried on until no goroutine is left, and no
    run goes on for ever. *)
Lemma completes cost n ts s p :
  (forall t s t' s', body t s (inl t') s' -> (cost t' < cost t)%nat) ->
  (forall t s, exists x s', body t s x s') ->
  (length ts <= cap)%nat ->
  reachable n ts s p ->
  exists p', reachable n ts s p' /\ running p' = [].
Proof.
  intros Hcost Htot Hcap.
  remember (weight cost p) as k eqn:Hk.
  revert p Hk. induction k as [k IH] using lt_wf_ind. intros p Hk Hr.
  destruct (running p) as [|t rest] eqn:Hrun.
  - exists p. auto.
  - destruct (progress n ts s p Htot Hcap Hr) as [p' Hs].
    { rewrite Hrun. discriminate. }
    apply (IH (weight cost p')) with (p := p').
    + subst k. now apply step_weight.
    + reflexivity.
    + unfold FanOut.reachable in *. eapply rtc_r; eassumption.
Qed.

End Runs.

End FanOutProps.

(** ** Remote import *)

Module ImportProps.

Import Package FanOut FanOutProps.

Lemma joinErrors_from errs acc :
  fold_left (fun errMsg e => errMsg ++ e ++ newline) errs acc
  = acc ++ lines errs.
Proof.
  revert acc; induction errs as [|e rest IH]; intros acc; simpl.
  - symmetry. apply append_nil_r.
  - rewrite IH, !append_assoc. reflexivity.
Qed.

(** The combined error is nil when no task failed and the lines of all
    the failures otherwise. *)
Lemma aggregate_lines errs :
  aggregate errs = match errs with [] => None | _ => Some (lines errs) end.
Proof.
  unfold aggregate, joinErrors. rewrite joinErrors_from.
  change ("" ++ lines errs) with (lines errs).
  destruct errs as [|e rest]; [reflexivity|].
  replace (0 <? String.length (lines (e :: rest)))%nat with true;
    [reflexivity|].
  symmetry. apply Nat.ltb_lt. simpl lines.
  rewrite !length_append. unfold newline. simpl. lia.
Qed.

(** *** The files queued for download *)

Lemma keysOK_empty : keysOK ∅.
Proof. intros k [x Hx]. rewrite lookup_empty in Hx. discriminate. Qed.

Lemma keysOK_appendFile key file m :
  key = templatesKey \/ key = pluginsKey ->
  keysOK m -> keysOK (appendFile key file m).
Proof.
  intros Hkey Hm k Hk. unfold appendFile in Hk.
  destruct (decide (key = k)) as [<-|Hne]; [exact Hkey|].
  rewrite lookup_insert_ne in Hk by exact Hne. now apply Hm.
Qed.

Lemma appendFile_lookup key file (m : FileMap) :
  appendFile key file m !!! key = ((m !!! key) ++ [file])%list.
Proof. unfold appendFile. apply lookup_total_insert_eq. Qed.

Section Queue.

Context {World : Type} `{Platform World}.

Lemma keysOK_queueMatching templates files files' :
  keysOK files -> queueMatching templates files = Some files' ->
  keysOK files'.
Proof.
  revert files; induction templates as [|t rest IH]; intros files Hk; simpl.
  - now intros [= <-].
  - destruct (Go.slice_from (Destination t) _) as [trimmed|]; simpl;
      [|discriminate].
    apply IH. destruct (Go.HasPrefix trimmed (Path t)); [|exact Hk].
    apply keysOK_appendFile; [now left | exact Hk].
Qed.

Lemma keysOK_queueTemplateDeps cName cTemplates memo (st st' : state World)
    files files' :
  keysOK files ->
  queueTemplateDeps cName cTemplates memo st files = (Ok files', st') ->
  keysOK files'.
Proof.
  revert memo st files; induction cTemplates as [|t rest IH];
    intros memo st files Hk; simpl.
  - now intros [= <- _].
  - destruct (String.eqb (Path t) ""); [now apply IH|].
    destruct (loadTemplates memo st) as [[e|templates] st1]; [discriminate|].
    destruct (length templates <? 1)%nat; [discriminate|].
    destruct (queueMatching templates files) as [files1|] eqn:Hq;
      [|discriminate].
    apply IH. eapply keysOK_queueMatching; eassumption.
Qed.

Lemma keysOK_queueDeclared c files :
  keysOK files -> keysOK (queueDeclared c files).
Proof.
  unfold queueDeclared. intros Hk.
  assert (Ht : keysOK
    (fold_left (fun m template => appendFile templatesKey (Path template) m)
       (Templates c) files)).
  { revert files Hk. induction (Templates c) as [|t rest IH];
      intros files Hk; simpl; [exact Hk|].
    apply IH, keysOK_appendFile; [now left | exact Hk]. }
  revert Ht. generalize (fold_left
    (fun m template => appendFile templatesKey (Path template) m)
    (Templates c) files).
  induction (Plugins c) as [|pl rest IH]; intros m Hm; simpl; [exact Hm|].
  apply IH, keysOK_appendFile; [now right | exact Hm].
Qed.

Lemma keysOK_prepareImport packageURL c (st st1 : state World) c1 files :
  prepareImport packageURL c st = (Ok (c1, files), st1) -> keysOK files.
Proof.
  unfold prepareImport.
  destruct (DownloadFileIfNotExists _ _ (world st)) as [[e|] w];
    [discriminate|].
  destruct (ImportFromConfig _ c w) as [c2|e|]; try discriminate.
  destruct (queueTemplateDeps _ _ None _ ∅) as [[files1|e|] st2] eqn:Hq;
    try discriminate.
  intros [= _ <- _]. apply keysOK_queueDeclared.
  eapply keysOK_queueTemplateDeps; [apply keysOK_empty | exact Hq].
Qed.

(** The inner loop on converted tree entries: their [Path] is empty, the
    prefix test holds of every entry, and all of them are queued. *)
Lemma queueMatching_queues_all templates (files files' : FileMap) :
  Forall (fun t => Path t = EmptyString) templates ->
  queueMatching templates files = Some files' ->
  exists trimmed,
    Forall2
      (fun t file =>
         Go.slice_from (Destination t) (String.length "templates/")
         = Some file) templates trimmed
    /\ files' !!! templatesKey = ((files !!! templatesKey) ++ trimmed)%list.
Proof.
  intros Hp. revert files.
  induction Hp as [|t rest Ht _ IH]; intros files; simpl.
  - intros [= <-]. exists []. split; [constructor | now rewrite app_nil_r].
  - destruct (Go.slice_from (Destination t) _) as [trimmed|] eqn:Hs; simpl;
      [|discriminate].
    rewrite Ht. replace (Go.HasPrefix trimmed "") with true
      by (destruct trimmed; reflexivity).
    intros Hq. destruct (IH _ Hq) as [more [Hm Hl]].
    exists (trimmed :: more). split; [now constructor|].
    rewrite Hl, appendFile_lookup, <- app_assoc. reflexivity.
Qed.

End Queue.

(** *** The goroutines of the download *)

Lemma fetchTasks_split (m : FileMap) k :
  fetchTasks m
  ≡ₚ ((fun file => (k, file)) <$> m !!! k) ++ fetchTasks (delete k m).
Proof.
  rewrite lookup_total_alt. unfold fetchTasks.
  destruct (m !! k) as [l|] eqn:Hl; simpl.
  - rewrite <- (map_to_list_delete m k l Hl) at 1.
    rewrite bind_cons. reflexivity.
  - now rewrite (delete_id m k Hl).
Qed.

(** With the two file types as only keys, the goroutines are one per
    queued template file and one per queued plugin file. *)
Lemma fetchTasks_keysOK (m : FileMap) :
  keysOK m ->
  fetchTasks m
  ≡ₚ ((fun file => (templatesKey, file)) <$> m !!! templatesKey)
     ++ ((fun file => (pluginsKey, file)) <$> m !!! pluginsKey).
Proof.
  intros Hk. rewrite (fetchTasks_split m templatesKey).
  rewrite (fetchTasks_split (delete templatesKey m) pluginsKey).
  replace (delete templatesKey m !!! pluginsKey) with (m !!! pluginsKey).
  - replace (delete pluginsKey (delete templatesKey m)) with (∅ : FileMap).
    + unfold fetchTasks. rewrite map_to_list_empty. simpl.
      now rewrite app_nil_r.
    + symmetry. apply map_empty. intros k.
      destruct (decide (pluginsKey = k)) as [<-|Hp];
        [apply lookup_delete_eq|].
      rewrite lookup_delete_ne by exact Hp.
      destruct (decide (templatesKey = k)) as [<-|Ht];
        [apply lookup_delete_eq|].
      rewrite lookup_delete_ne by exact Ht.
      destruct (m !! k) as [l|] eqn:Hl; [|reflexivity].
      destruct (Hk k) as [-> | ->]; [eauto | contradiction..].
  - rewrite !lookup_total_alt, lookup_delete_ne; [reflexivity | discriminate].
Qed.

Lemma fetchTasks_length (m : FileMap) :
  keysOK m -> length (fetchTasks m) = numFiles m.
Proof.
  intros Hk. rewrite (Permutation_length (fetchTasks_keysOK m Hk)).
  unfold numFiles. now rewrite length_app, !length_fmap.
Qed.

Section Fetch.

Context {World : Type} `{Platform World}.

Lemma launch_length (files : FileMap) :
  keysOK files -> length (launch <$> fetchTasks files) = numFiles files.
Proof. intros Hk. rewrite length_fmap. now apply fetchTasks_length. Qed.

Lemma fetchBody_total task (b : batch) :
  exists x b', fetchBody task b x b'.
Proof.
  destruct task as [fileType file [| |]].
  - destruct (DownloadFileIfNotExists
                (filepath_Join [GetBaseConfigPath; fileType; file])
                (FilePathToRawURI (importer (base b))
                   (filepath_Join [fileType; file])) (world (base b)))
      as [e w] eqn:Hd.
    eexists _, _. apply fetch_download. exact Hd.
  - destruct (err b) as [e|] eqn:He.
    + eexists _, _. eapply fetch_test. exact He.
    + eexists _, _. apply fetch_skip. exact He.
  - eexists _, _. apply fetch_send.
Qed.

Lemma fetchBody_cost t (b : batch) t' b' :
  fetchBody t b (inl t') b' -> (fetchCost t' < fetchCost t)%nat.
Proof. intros Hb. inversion Hb; subst; unfold fetchCost; simpl; lia. Qed.

(** The goroutines of the download are waited for: in every state of a
    run a goroutine that is left can make a step, whatever the others
    did, and [Wait] returns exactly when none is left. *)
Lemma fetch_waits_for_all files (st1 : state World) p :
  keysOK files ->
  reachable fetchBody fetchChan (numFiles files) (Z.of_nat (numFiles files))
    (launch <$> fetchTasks files) (mkBatch st1 None) p ->
  (released p <-> running p = [])
  /\ (running p <> [] ->
      exists p', step fetchBody fetchChan (numFiles files) p p').
Proof.
  intros Hk Hr. pose proof (launch_length files Hk) as Hlen.
  rewrite <- Hlen in Hr. split.
  - eapply released_iff_all_done, Hr.
  - intros Hne. rewrite <- Hlen.
    eapply progress; eauto using fetchBody_total.
Qed.

(** The download returns. *)
Lemma fetchAll_returns files (st1 : state World) :
  keysOK files -> exists e st2, fetchAll files st1 e st2.
Proof.
  intros Hk. pose proof (launch_length files Hk) as Hlen.
  destruct (completes fetchBody fetchChan (numFiles files) fetchCost
              (Z.of_nat (numFiles files)) (launch <$> fetchTasks files)
              (mkBatch st1 None)
              (mkPool (Z.of_nat (numFiles files))
                 (launch <$> fetchTasks files) (mkBatch st1 None) []))
    as [p [Hr Hnil]];
    [apply fetchBody_cost | apply fetchBody_total | lia | apply rtc_refl |].
  exists (aggregate (fetchErrors (sent p))), (base (shared p)).
  constructor; [exact Hr|].
  now apply (fetch_waits_for_all files st1 p Hk Hr).
Qed.

(** When no download fails the error is nil. *)
Lemma fetch_nil_when_none_fails files (st1 : state World) e st2 :
  (forall dst src w, (DownloadFileIfNotExists dst src w).1 = None) ->
  fetchAll files st1 e st2 -> e = None.
Proof.
  intros Hok Hf. destruct Hf as [p Hr _].
  assert (Hinv : err (shared p) = None
                 /\ Forall (fun t => at_stage t <> Sending) (running p)
                 /\ Forall (fun o => o = None) (sent p)).
  { revert p Hr. apply rtc_ind_r.
    - simpl. split; [reflexivity|]. split; [|constructor].
      apply Forall_fmap, Forall_true. discriminate.
    - intros p1 p2 _ Hs [He [Hrun Hsent]].
      destruct Hs as [pre t post m b t' b' out Hb|pre t post m b o b' out Hb _];
        simpl in *; apply Forall_app in Hrun; destruct Hrun as [Hpre Hpost];
        apply Forall_cons in Hpost; destruct Hpost as [Ht Hpost];
        inversion Hb; subst; simpl in *; try congruence.
      + split; [|split; [|exact Hsent]].
        * match goal with
          | Hd : DownloadFileIfNotExists ?dst ?src ?w0 = (_, _) |- _ =>
              specialize (Hok dst src w0); now rewrite Hd in Hok
          end.
        * apply Forall_app. split; [exact Hpre|].
          apply Forall_cons. split; [discriminate | exact Hpost].
      + split; [exact He|]. split.
        * apply Forall_app. now split.
        * apply Forall_app. split; [exact Hsent|]. now repeat constructor. }
  destruct Hinv as [_ [_ Hsent]].
  replace (fetchErrors (sent p)) with (@nil Err); [reflexivity|].
  clear Hr. induction Hsent as [|o out Ho _ IH]; [reflexivity|].
  subst o. exact IH.
Qed.

(** *** The import of a collection *)

Lemma ImportFromRepo_returns packageURL c (st : state World) :
  exists r st', ImportFromRepo packageURL c st r st'.
Proof.
  destruct (prepareImport packageURL c st) as [[[c1 files]|e|] st1] eqn:Hp.
  - destruct (fetchAll_returns files st1
                (keysOK_prepareImport _ _ _ _ _ _ Hp)) as [e [st2 Hf]].
    eexists _, st2. eapply import_fetch; eassumption.
  - exists (Fail e), st1. now constructor.
  - exists Panic, st1. now constructor.
Qed.

Lemma importBody_total collectionURL template (st : state World) :
  exists x st', importBody collectionURL template st x st'.
Proof.
  unfold importBody.
  destruct (ParseURL (urlString collectionURL ++ "/" ++ Destination template))
    as [e|packageURL] eqn:Hu.
  - exists (inr (Fail e)), st. eexists. split; [reflexivity|]. now constructor.
  - destruct (ImportFromRepo_returns packageURL
                (NewPackage EmptyString EmptyString false) st)
      as [r [st' Hi]].
    exists (inr r), st'. eexists. split; [reflexivity|].
    eapply task_import; eassumption.
Qed.

Lemma importBody_cost collectionURL t (st : state World) t' st' :
  importBody collectionURL t st (inl t') st' -> (0 < 0)%nat.
Proof. intros [r [Hx _]]. discriminate. Qed.

(** The counter is set to the number of entries under [configs/] and a
    goroutine is launched for the files among them only: when an entry
    is not a file, [Wait] never returns and neither does the import. *)
Lemma collection_never_returns collectionURL (st st1 : state World) c :
  ImportFromRepoStructure (NewPackage EmptyString EmptyString false)
    [rexConfigs] st = (Ok c, st1) ->
  (length (collectionTasks c) < length (Templates c))%nat ->
  forall r st', ~ ImportCollectionFromRepo collectionURL st r st'.
Proof.
  intros Hs Hlt r st' Hc.
  destruct Hc as [e st2 Hs'|st2 Hs'|c' st2 Hs' He|c' st2 p Hs' He Hr Hrel];
    rewrite Hs in Hs'; try discriminate; injection Hs' as <- <-.
  - unfold isEmpty in He. apply andb_true_iff in He. destruct He as [He _].
    apply Nat.eqb_eq in He. lia.
  - revert Hrel. eapply never_released; [|exact Hr]. lia.
Qed.

(** When every entry is a file the import returns. *)
Lemma collection_returns collectionURL (st st1 : state World) c :
  ImportFromRepoStructure (NewPackage EmptyString EmptyString false)
    [rexConfigs] st = (Ok c, st1) ->
  isEmpty c = false ->
  collectionTasks c = Templates c ->
  exists r st', ImportCollectionFromRepo collectionURL st r st'.
Proof.
  intros Hs He Hall.
  destruct (completes (importBody collectionURL) importChan
              (length (Templates c)) (fun _ => 0%nat)
              (Z.of_nat (length (Templates c)))
              (collectionTasks c) st1
              (mkPool (Z.of_nat (length (Templates c))) (collectionTasks c)
                 st1 []))
    as [p [Hr Hnil]];
    [apply importBody_cost | apply importBody_total | rewrite Hall; lia
    | apply rtc_refl |].
  eexists _, (shared p). eapply collection_run; eauto.
  rewrite <- Hall in Hr at 2.
  now apply (released_iff_all_done _ _ _ _ _ _ Hr).
Qed.

End Fetch.

End ImportProps.

(** ** Remote import on the sample repositories *)

Module ImportRuns.

Import Package FanOut ImportProps.

(** C1 on a package that declares the template path "foo", imported from
    a repository with the template folders "foo" and "bar": the entries
    of "bar" are queued as well, though they do not start with "foo". *)
Theorem queue_ignores_declared_path :
  match queueTemplateDeps "demo" [mkTemplate false "foo" "src" EmptyString]
          None (mkState Sample.twoFolders Sample.disk) ∅ with
  | (Ok files, _) =>
      files !! templatesKey = Some ["foo"; "foo/a.txt"; "bar"; "bar/b.txt"]
  | _ => False
  end
  /\ Go.HasPrefix "bar" "foo" = false
  /\ Go.HasPrefix "bar/b.txt" "foo" = false.
Proof. vm_compute. repeat split. Qed.

(** C2 on a collection whose [configs/] folder has a sub-folder: the
    entries under [configs/] are the sub-folder and a file, the counter
    is set to 2, one goroutine is launched, and the import does not
    return. *)
Theorem collection_with_folder_never_returns :
  forall r st',
    ~ ImportCollectionFromRepo Sample.collectionURL
        (mkState Sample.nestedConfigs Sample.disk) r st'.
Proof.
  eapply collection_never_returns.
  - vm_compute. reflexivity.
  - vm_compute. lia.
Qed.

Lemma sample_prepared :
  Sample.prepared
  = (Ok (Sample.decoded, Sample.preparedFiles), Sample.prepared.2).
Proof. vm_compute. reflexivity. Qed.

Lemma sample_tasks :
  launch <$> fetchTasks Sample.preparedFiles
  = [mkFetch "templates" "" Start; mkFetch "plugins" "missing.sh" Start]
  /\ numFiles Sample.preparedFiles = 2%nat.
Proof. vm_compute. split; reflexivity. Qed.

(** A run of the two goroutines: the download of the plugin fails and
    stores its error in [err], the download of the template succeeds and
    stores nil in [err], and then both goroutines find [err] nil. *)
Lemma sample_lost_run :
  exists p,
    reachable fetchBody fetchChan (numFiles Sample.preparedFiles)
      (Z.of_nat (numFiles Sample.preparedFiles))
      (launch <$> fetchTasks Sample.preparedFiles)
      (mkBatch Sample.prepared.2 None) p
    /\ released p
    /\ fetchErrors (sent p) = []
    /\ world (base (shared p)) !! "/cfg/plugins/missing.sh" = None.
Proof.
  destruct sample_tasks as [-> ->]. unfold reachable. eexists. split.
  - eapply rtc_l.
    { eapply (step_move _ _ _ [mkFetch "templates" "" Start]
                (mkFetch "plugins" "missing.sh" Start) []).
      eapply fetch_download. reflexivity. }
    eapply rtc_l.
    { eapply (step_move _ _ _ [] (mkFetch "templates" "" Start)
                [mkFetch "plugins" "missing.sh" Stored]).
      eapply fetch_download. reflexivity. }
    eapply rtc_l.
    { eapply (step_done _ _ _ [mkFetch "templates" "" Stored]
                (mkFetch "plugins" "missing.sh" Stored) []).
      - eapply fetch_skip. reflexivity.
      - discriminate. }
    eapply rtc_l.
    { eapply (step_done _ _ _ [] (mkFetch "templates" "" Stored) []).
      - eapply fetch_skip. reflexivity.
      - discriminate. }
    apply rtc_refl.
  - vm_compute. repeat split.
Qed.

(** C8 on the sample package, whose plugin cannot be downloaded: the
    download of the plugin fails whenever the plugin is not on the disk,
    and yet the download of [ImportFromRepo] can return nil, with the
    plugin not on the disk. *)
Theorem fetch_can_lose_a_failure :
  In ("plugins", "missing.sh") (fetchTasks Sample.preparedFiles)
  /\ (forall w : gmap string string,
        w !! "/cfg/plugins/missing.sh" = None ->
        DownloadFileIfNotExists
          (filepath_Join [GetBaseConfigPath; "plugins"; "missing.sh"])
          (FilePathToRawURI Sample.twoFolders
             (filepath_Join ["plugins"; "missing.sh"])) w
        = (Some "cannot download raw/plugins/missing.sh", w))
  /\ exists st2,
       fetchAll Sample.preparedFiles Sample.prepared.2 None st2
       /\ world st2 !! "/cfg/plugins/missing.sh" = None.
Proof.
  split; [vm_compute; auto|]. split.
  - intros w Hw. simpl. unfold Sample.download.
    change (Sample.joinPath ["/cfg"; "plugins"; "missing.sh"])
      with "/cfg/plugins/missing.sh".
    rewrite Hw. reflexivity.
  - destruct sample_lost_run as [p [Hr [Hrel [Herrs Hdisk]]]].
    exists (base (shared p)). split; [|exact Hdisk].
    change None with (aggregate (@nil Err)). rewrite <- Herrs.
    now constructor.
Qed.

End ImportRuns.

(** ** More on the label of a package *)

Module LabelProps.

Import Package.

Lemma split_from_cons sep skip acc c s :
  Go.split_from sep skip acc (String c s)
  = match skip with
    | S k => Go.split_from sep k acc s
    | O =>
        if String.prefix sep (String c s)
        then acc :: Go.split_from sep (String.length sep - 1) "" s
        else Go.split_from sep O (acc ++ String c "") s
    end.
Proof. reflexivity. Qed.

Lemma split_from_not_nil sep skip acc s :
  (1 <= length (Go.split_from sep skip acc s))%nat.
Proof.
  revert skip acc; induction s as [|c s IH]; intros skip acc.
  - simpl. lia.
  - rewrite split_from_cons. destruct skip as [|k]; [|apply IH].
    destruct (String.prefix sep (String c s)); [simpl; lia | apply IH].
Qed.

(** A split with one part has found no separator: the part is the
    whole string. *)
Lemma split_from_single sep acc s :
  (length (Go.split_from sep 0 acc s) <= 1)%nat ->
  Go.split_from sep 0 acc s = [acc ++ s].
Proof.
  revert acc; induction s as [|c s IH]; intros acc.
  - intros _. simpl. now rewrite append_nil_r.
  - rewrite split_from_cons. destruct (String.prefix sep (String c s)).
    + pose proof (split_from_not_nil sep (String.length sep - 1) "" s).
      simpl. lia.
    + intros Hl. rewrite (IH _ Hl), append_assoc. reflexivity.
Qed.

Lemma splitBySeparators_single seps name parts :
  seps <> [] ->
  (length (splitBySeparators seps name parts) <= 1)%nat ->
  splitBySeparators seps name parts = [name].
Proof.
  revert parts; induction seps as [|d ds IH]; intros parts Hne; [easy|].
  simpl. destruct (1 <? length (Go.Split name d))%nat eqn:Hd.
  - apply Nat.ltb_lt in Hd. lia.
  - apply Nat.ltb_ge in Hd. destruct ds as [|d' ds'].
    + simpl. intros _. now apply (split_from_single d "" name).
    + apply IH. discriminate.
Qed.

Lemma firstBytes_None_iff i parts label :
  firstBytes i parts label = None
  <-> In "" (firstn (S maxLabelLen - i) parts).
Proof.
  revert i label; induction parts as [|part rest IH]; intros i label.
  - rewrite firstn_nil. simpl. split; [discriminate | tauto].
  - simpl firstBytes. destruct (maxLabelLen <? i)%nat eqn:Hi.
    + apply Nat.ltb_lt in Hi.
      replace (S maxLabelLen - i)%nat with 0%nat by lia.
      simpl. split; [discriminate | tauto].
    + apply Nat.ltb_ge in Hi.
      replace (S maxLabelLen - i)%nat with (S (S maxLabelLen - S i)) by lia.
      rewrite firstn_cons. destruct part as [|c part]; simpl Go.index.
      * split; [intros _; now left | reflexivity].
      * rewrite IH. simpl. split; [tauto | intros [Hc | Hin]; easy].
Qed.

Lemma in_firstn {A} (x : A) n l : In x (firstn n l) -> In x l.
Proof.
  intros Hin. rewrite <- (firstn_skipn n l). apply in_or_app. now left.
Qed.

Section Panic.

Variable mapLower : string -> string.

(** [pickLabel] panics exactly on the names of two bytes or more in
    which one of the first five parts of the split by a separator is
    empty: a name that starts or ends with the separator, or has it
    twice in a row, among these parts. *)
Theorem pickLabel_panics_iff (packageName : string) :
  pickLabel mapLower packageName = None
  <-> (2 <= String.length packageName)%nat
      /\ In "" (firstn 5 (splitBySeparators labelSeparators packageName [])).
Proof.
  assert (Hlong : In "" (splitBySeparators labelSeparators packageName []) ->
                  (2 <= String.length packageName)%nat ->
                  (1 <? length (splitBySeparators labelSeparators
                                  packageName []))%nat = true).
  { intros Hin Hlen. apply Nat.ltb_lt.
    destruct (Nat.le_gt_cases
                (length (splitBySeparators labelSeparators packageName []))
                1) as [Hle|Hgt]; [|exact Hgt].
    rewrite (splitBySeparators_single labelSeparators packageName [])
      in Hin by (discriminate || exact Hle).
    destruct Hin as [Hn | []]. rewrite Hn in Hlen. simpl in Hlen. lia. }
  assert (Hshort : (String.length packageName <? 2)%nat = false ->
                   (2 <= String.length packageName)%nat)
    by (intros Hs; now apply Nat.ltb_ge in Hs).
  split.
  - intros Hnone.
    pose proof (pickLabel_None_empty_part mapLower _ Hnone) as Hin.
    unfold pickLabel in Hnone.
    destruct (String.length packageName <? 2)%nat eqn:Hs; [discriminate|].
    split; [auto|]. rewrite Hlong in Hnone by auto.
    destruct (firstBytes 0 _ "") eqn:Hf; [discriminate|].
    apply firstBytes_None_iff in Hf. exact Hf.
  - intros [Hlen Hin]. unfold pickLabel.
    replace (String.length packageName <? 2)%nat with false
      by (symmetry; now apply Nat.ltb_ge).
    rewrite Hlong; [|eapply in_firstn, Hin | exact Hlen].
    apply (firstBytes_None_iff 0 _ "") in Hin. now rewrite Hin.
Qed.

End Panic.

(** *** Names of ASCII bytes *)

Abbreviation bytes := list_ascii_of_string.

Lemma bytes_app (a b : string) : bytes (a ++ b) = (bytes a ++ bytes b)%list.
Proof.
  induction a as [|x a IH]; [reflexivity|].
  change (x :: bytes (a ++ b) = x :: (bytes a ++ bytes b)%list).
  now f_equal.
Qed.

Lemma bytes_length s : length (bytes s) = String.length s.
Proof. induction s as [|x s IH]; simpl; [reflexivity | now f_equal]. Qed.

Lemma isASCII_bytes s :
  Go.isASCII s = true <-> Forall (fun c => Label.asciiByte c = true) (bytes s).
Proof.
  induction s as [|x s IH]; simpl.
  - split; [constructor | reflexivity].
  - rewrite andb_true_iff, IH, Forall_cons. reflexivity.
Qed.

Lemma substring_whole s : String.substring 0 (String.length s) s = s.
Proof. induction s as [|x s IH]; simpl; [reflexivity | now f_equal]. Qed.

Lemma index_bytes s i c : Go.index s i = Some c -> In c (bytes s).
Proof.
  unfold Go.index. revert i; induction s as [|x s IH]; intros i; simpl.
  - discriminate.
  - destruct i as [|i]; [intros [= ->]; now left | intros Hi; right; eauto].
Qed.

Lemma string_of_ascii_byte c :
  Label.asciiByte c = true -> Go.string_of_byte c = String c "".
Proof. unfold Label.asciiByte, Go.string_of_byte. now intros ->. Qed.

(** Lower-casing an ASCII byte, and upper-casing the first byte of an
    ASCII name, checked on the 128 ASCII bytes. *)
Lemma lower_byte_lower c :
  Label.asciiByte c = true -> Label.lowerByte (Go.lower_byte c) = true.
Proof. destruct c as [[] [] [] [] [] [] [] []]; vm_compute; congruence. Qed.

Lemma upper_byte_ascii c :
  Label.asciiByte c = true ->
  Label.asciiByte (Go.byte_of (Go.ToUpper (Go.byte_val c))) = true.
Proof. destruct c as [[] [] [] [] [] [] [] []]; vm_compute; congruence. Qed.

Lemma lower_ascii_shape s :
  Go.isASCII s = true ->
  String.length (Go.lower_ascii s) = String.length s
  /\ Label.isLowerASCII (Go.lower_ascii s) = true.
Proof.
  unfold Label.isLowerASCII. induction s as [|x s IH]; simpl; [auto|].
  rewrite andb_true_iff. intros [Hx Hs]. destruct (IH Hs) as [Hl Hlow].
  split; [now f_equal|]. rewrite Hlow, (lower_byte_lower x Hx). reflexivity.
Qed.

Section Parts.

Variable P : ascii -> Prop.

Abbreviation allP := (fun p : string => Forall P (bytes p)).

Lemma split_from_bytes sep skip acc s :
  allP acc -> allP s -> Forall allP (Go.split_from sep skip acc s).
Proof.
  revert skip acc; induction s as [|c s IH]; intros skip acc Ha Hs.
  - simpl. now repeat constructor.
  - rewrite split_from_cons. simpl in Hs. apply Forall_cons in Hs.
    destruct Hs as [Hc Hs]. destruct skip as [|k]; [|now apply IH].
    destruct (String.prefix sep (String c s)).
    + constructor; [exact Ha|]. apply IH; [constructor | exact Hs].
    + apply IH; [|exact Hs]. rewrite bytes_app. apply Forall_app.
      split; [exact Ha | now repeat constructor].
Qed.

Lemma splitBySeparators_bytes seps name parts :
  Forall allP parts -> allP name ->
  Forall allP (splitBySeparators seps name parts).
Proof.
  revert parts; induction seps as [|d ds IH]; intros parts Hp Hn; simpl.
  - exact Hp.
  - assert (Hd : Forall allP (Go.Split name d))
      by (apply split_from_bytes; [constructor | exact Hn]).
    destruct (1 <? length (Go.Split name d))%nat; [exact Hd | now apply IH].
Qed.

Lemma upper_runs_bytes cur s :
  (forall r, cur = Some r -> allP r) -> allP s ->
  Forall allP (Go.upper_runs cur s).
Proof.
  revert cur; induction s as [|c s IH]; intros cur Hc Hs; simpl.
  - destruct cur as [r|]; simpl; [|constructor].
    constructor; [now apply Hc | constructor].
  - simpl in Hs. apply Forall_cons in Hs. destruct Hs as [Hx Hs].
    destruct (Go.isAZ c).
    + apply Forall_app. split.
      * destruct cur as [r|]; simpl; [|constructor].
        constructor; [now apply Hc | constructor].
      * apply IH; [|exact Hs]. intros r [= <-]. now repeat constructor.
    + apply IH; [|exact Hs]. intros r Hr.
      destruct cur as [r0|]; [|discriminate]. injection Hr as <-.
      rewrite bytes_app. apply Forall_app.
      split; [now apply Hc | now repeat constructor].
Qed.

End Parts.

(** The label the loop over the parts builds from ASCII parts: one byte
    per part, for at most five parts. *)
Lemma firstBytes_ascii i parts label l :
  Forall (fun p => Forall (fun c => Label.asciiByte c = true) (bytes p))
    parts ->
  firstBytes i parts label = Some l ->
  exists picks,
    l = label ++ string_of_list_ascii picks
    /\ Forall (fun c => Label.asciiByte c = true) picks
    /\ (length picks <= S maxLabelLen - i)%nat
    /\ ((i <= maxLabelLen)%nat -> parts <> [] -> (1 <= length picks)%nat).
Proof.
  intros Hp. revert i label.
  induction Hp as [|part rest Hpart _ IH]; intros i label; simpl firstBytes.
  - intros [= <-]. exists []. simpl. rewrite append_nil_r.
    repeat split; [constructor | lia | easy].
  - destruct (maxLabelLen <? i)%nat eqn:Hi.
    + apply Nat.ltb_lt in Hi. intros [= <-]. exists []. simpl.
      rewrite append_nil_r. repeat split; [constructor | lia | lia].
    + apply Nat.ltb_ge in Hi. destruct part as [|c part]; [discriminate|].
      simpl Go.index. cbv iota. simpl in Hpart.
      apply Forall_cons in Hpart. destruct Hpart as [Hc _].
      rewrite (string_of_ascii_byte c Hc). intros Hf.
      destruct (IH _ _ Hf) as [picks [-> [Hall [Hlen _]]]].
      exists (c :: picks). rewrite append_assoc. simpl.
      repeat split; [now constructor | lia | lia].
Qed.

Section Shape.

Variable mapLower : string -> string.

Lemma ToLower_ascii_picks picks :
  Forall (fun c => Label.asciiByte c = true) picks ->
  String.length (Go.ToLower mapLower (string_of_list_ascii picks))
  = length picks
  /\ Label.isLowerASCII (Go.ToLower mapLower (string_of_list_ascii picks))
     = true.
Proof.
  intros Hall.
  assert (Ha : Go.isASCII (string_of_list_ascii picks) = true).
  { apply isASCII_bytes. now rewrite list_ascii_of_string_of_list_ascii. }
  unfold Go.ToLower. rewrite Ha.
  destruct (lower_ascii_shape _ Ha) as [Hl Hlow]. split; [|exact Hlow].
  rewrite Hl, <- bytes_length, list_ascii_of_string_of_list_ascii.
  reflexivity.
Qed.

(** The label of a name of ASCII bytes that is not empty has one to five
    bytes, all of them ASCII and none a capital letter: it fits the 16
    bytes the storage gives a label. *)
Theorem pickLabel_ascii_shape (packageName label : string) :
  Go.isASCII packageName = true ->
  packageName <> "" ->
  pickLabel mapLower packageName = Some label ->
  (1 <= String.length label <= 5)%nat
  /\ Label.isLowerASCII label = true.
Proof.
  intros Hascii Hne. apply isASCII_bytes in Hascii.
  assert (Hfinish : forall picks,
             Forall (fun c => Label.asciiByte c = true) picks ->
             (1 <= length picks <= 5)%nat ->
             (1 <= String.length
                     (Go.ToLower mapLower ("" ++ string_of_list_ascii picks))
              <= 5)%nat
             /\ Label.isLowerASCII
                  (Go.ToLower mapLower ("" ++ string_of_list_ascii picks))
                = true).
  { intros picks Hall Hlen.
    change ("" ++ string_of_list_ascii picks)
      with (string_of_list_ascii picks).
    destruct (ToLower_ascii_picks picks Hall) as [-> ->]. auto. }
  unfold pickLabel.
  destruct (String.length packageName <? 2)%nat eqn:Hshort.
  { apply Nat.ltb_lt in Hshort. intros [= <-].
    destruct packageName as [|c [|c' rest]]; [easy | | simpl in Hshort; lia].
    apply (Hfinish [c]); [exact Hascii | simpl; lia]. }
  destruct (1 <? length (splitBySeparators labelSeparators packageName []))%nat
    eqn:Hparts.
  { apply Nat.ltb_lt in Hparts.
    destruct (firstBytes 0 _ "") as [raw|] eqn:Hf; [|discriminate].
    intros [= <-].
    destruct (firstBytes_ascii 0 _ "" raw
                (splitBySeparators_bytes _ labelSeparators packageName []
                   (List.Forall_nil _) Hascii) Hf)
      as [picks [-> [Hall [Hle Hge]]]].
    apply Hfinish; [exact Hall|]. split; [|exact Hle].
    apply Hge; [unfold maxLabelLen; lia|].
    intros Hnil. rewrite Hnil in Hparts. simpl in Hparts. lia. }
  destruct packageName as [|c0 tl]; [easy|].
  simpl bytes in Hascii. apply Forall_cons in Hascii.
  destruct Hascii as [Hc0 Htl].
  remember (String.length (String c0 tl)) as n eqn:Hn.
  remember (n / 2)%nat as mid eqn:Hm. clear Hm.
  simpl Go.index. cbv iota.
  set (name1 := if negb (Go.IsUpper (Go.byte_val c0)) then _ else _).
  assert (Hname : exists s,
             name1 = Some s
             /\ Forall (fun c => Label.asciiByte c = true) (bytes s)).
  { subst name1. destruct (negb (Go.IsUpper (Go.byte_val c0))).
    - unfold Go.slice_from. simpl (1 <=? _)%nat. simpl (_ - 1)%nat.
      rewrite Nat.sub_0_r. simpl mbind. eexists. split; [reflexivity|].
      rewrite substring_whole,
        (string_of_ascii_byte _ (upper_byte_ascii c0 Hc0)).
      constructor; [now apply upper_byte_ascii | exact Htl].
    - eexists. split; [reflexivity | now constructor]. }
  destruct Hname as [s [-> Hs]]. simpl mbind.
  destruct (1 <? length (Go.FindAllString_upper s))%nat eqn:Hruns.
  { apply Nat.ltb_lt in Hruns.
    destruct (firstBytes 0 _ "") as [raw|] eqn:Hf; [|discriminate].
    intros [= <-].
    destruct (firstBytes_ascii 0 _ "" raw
                (upper_runs_bytes _ None s ltac:(discriminate) Hs) Hf)
      as [picks [-> [Hall [Hle Hge]]]].
    apply Hfinish; [exact Hall|]. split; [|exact Hle].
    apply Hge; [unfold maxLabelLen; lia|].
    intros Hnil. unfold Go.FindAllString_upper in Hruns.
    rewrite Hnil in Hruns. simpl in Hruns. lia. }
  pose proof (proj1 (List.Forall_forall _ _) Hs) as Hin.
  destruct (Go.index s 0) as [a|] eqn:H0; [|discriminate].
  destruct (Go.index s mid) as [b|] eqn:H1; [|discriminate].
  destruct (Go.index s (n - 1)) as [c|] eqn:H2; [|discriminate].
  simpl mbind. intros [= <-].
  rewrite !string_of_ascii_byte by eauto using index_bytes.
  apply (Hfinish [a; b; c]); [|simpl; lia].
  repeat constructor; eauto using index_bytes.
Qed.

End Shape.

End LabelProps.

(** ** More on the remote import *)

Module ImportMore.

Import Package FanOut FanOutProps TreeProps ImportProps.

Lemma prefix_length (a b : string) :
  String.prefix a b = true -> (String.length a <= String.length b)%nat.
Proof.
  revert b; induction a as [|x a IH]; intros b; [simpl; lia|].
  destruct b as [|y b]; simpl; [discriminate|].
  destruct (ascii_dec x y); [|discriminate]. intros Hp. apply IH in Hp.
  lia.
Qed.

Lemma Contains_length (s sub : string) :
  Contains s sub = true -> (String.length sub <= String.length s)%nat.
Proof.
  induction s as [|c s IH]; cbn [Contains].
  - rewrite orb_false_r. apply prefix_length.
  - intros Hc. apply orb_true_iff in Hc. destruct Hc as [Hp|Hc].
    + apply prefix_length in Hp. exact Hp.
    + apply IH in Hc. simpl. lia.
Qed.

(** Every template the conversion returns comes from an entry that the
    filters keep. *)
Lemma converted_kept importer filters :
  Forall (fun t => kept filters (Destination t) = true)
    (filterAndConvertTreeEntries importer filters).
Proof.
  destruct importer as [gh|gl|]; simpl.
  - unfold filterAndConvertGHTreeEntries. rewrite convertGH_acc. simpl.
    apply List.Forall_forall. intros t Ht. apply in_map_iff in Ht.
    destruct Ht as [e [<- He]]. apply filter_In in He. apply He.
  - unfold filterAndConvertGLTreeEntries. rewrite convertGL_acc. simpl.
    apply List.Forall_forall. intros t Ht. apply in_map_iff in Ht.
    destruct Ht as [e [<- He]]. apply filter_In in He. apply He.
  - constructor.
Qed.

Section Config.

Context {World : Type} `{Platform World}.

Lemma ImportFromConfig_checks path c (w : World) c' :
  ImportFromConfig path c w = Ok c' ->
  Go.HasSuffix path ".toml" = true
  /\ toml_Unmarshal path w c = inr c'
  /\ Imported.valid c'.
Proof.
  unfold ImportFromConfig, Imported.valid.
  destruct (Go.HasSuffix path ".toml"); simpl; [|discriminate].
  destruct (os_Stat_Size path w) as [e|size]; [discriminate|].
  destruct (size =? 0); [discriminate|].
  destruct (toml_Unmarshal path w c) as [e|c2]; [discriminate|].
  destruct (String.length (Name c2) <? 1)%nat eqn:Hn; [discriminate|].
  destruct (String.length (Label c2) <? 1)%nat eqn:Hl; [discriminate|].
  destruct (isEmpty c2) eqn:He; [discriminate|].
  intros [= <-]. apply Nat.ltb_ge in Hn, Hl.
  repeat split; try assumption; intros Hz; rewrite Hz in *; simpl in *; lia.
Qed.

(** A package that [ImportFromConfig] returns was decoded from a file
    with the extension ".toml" and has a name, a label and a template or
    a plugin; a path with another extension is refused whatever the file
    system holds. *)
Theorem ImportFromConfig_valid path c (w : World) :
  (forall c',
      ImportFromConfig path c w = Ok c' ->
      Go.HasSuffix path ".toml" = true
      /\ toml_Unmarshal path w c = inr c'
      /\ Imported.valid c')
  /\ (Go.HasSuffix path ".toml" = false ->
      forall w' : World,
        ImportFromConfig path c w'
        = Fail "import file has to be of type 'toml'").
Proof.
  split; [intros c'; apply ImportFromConfig_checks|].
  intros Hs w'. unfold ImportFromConfig. now rewrite Hs.
Qed.

Lemma ImportFromConfig_no_panic path c (w : World) :
  ImportFromConfig path c w <> Panic.
Proof.
  unfold ImportFromConfig.
  destruct (Go.HasSuffix path ".toml"); simpl; [|discriminate].
  destruct (os_Stat_Size path w) as [e|size]; [discriminate|].
  destruct (size =? 0); [discriminate|].
  destruct (toml_Unmarshal path w c) as [e|c2]; [discriminate|].
  destruct (String.length (Name c2) <? 1)%nat; [discriminate|].
  destruct (String.length (Label c2) <? 1)%nat; [discriminate|].
  destruct (isEmpty c2); discriminate.
Qed.

(** An import of the structure of a repository into a new package
    succeeds only with at least one template: the package gets the
    converted entries, the base name of the repository and its label.
    The second emptiness test of [ImportCollectionFromRepo] therefore
    never fires. *)
Theorem ImportFromRepoStructure_not_empty name label isDefault filters
    (st st' : state World) c :
  ImportFromRepoStructure (NewPackage name label isDefault) filters st
  = (Ok c, st') ->
  Templates c = filterAndConvertTreeEntries (importer st') filters
  /\ Templates c <> []
  /\ isEmpty c = false
  /\ Name c = path_Base (Repo (importer st'))
  /\ pickLabel mapLower (Name c) = Some (Label c)
  /\ st' = Imported.loaded st.
Proof.
  unfold ImportFromRepoStructure, Imported.loaded.
  destruct (LoadTreeEntries (importer st) (world st)) as [[[e|] imp] w];
    [discriminate|].
  simpl. unfold isEmpty at 1. simpl.
  destruct (filterAndConvertTreeEntries imp filters) as [|t ts] eqn:Hconv;
    [discriminate|].
  simpl. destruct (pickLabel mapLower (path_Base (Repo imp))) as [l|] eqn:Hl;
    [|discriminate].
  intros [= <- <-]. simpl. rewrite Hconv. repeat split; easy.
Qed.

End Config.

Lemma appendFile_other key file (m : FileMap) k :
  k <> key -> appendFile key file m !!! k = m !!! k.
Proof.
  intros Hne. unfold appendFile.
  rewrite lookup_total_insert_ne; [reflexivity | congruence].
Qed.

Section Queued.

Context {World : Type} `{Platform World}.

Lemma queueMatching_no_panic templates (files : FileMap) :
  Forall Imported.cuttable templates -> queueMatching templates files <> None.
Proof.
  intros Hc. revert files.
  induction Hc as [|t rest Ht _ IH]; intros files; [discriminate|].
  unfold Imported.cuttable, kept in Ht. simpl in Ht.
  rewrite orb_false_r in Ht. apply Contains_length in Ht.
  cbn [queueMatching]. unfold Go.slice_from.
  destruct (String.length "templates/" <=? String.length (Destination t))%nat
    eqn:Hle; [|apply Nat.leb_gt in Hle; lia].
  cbn [mbind option_bind]. apply IH.
Qed.

Lemma loadTemplates_cuttable memo (st st' : state World) templates :
  (forall ts, memo = Some ts -> Forall Imported.cuttable ts) ->
  loadTemplates memo st = (inr templates, st') ->
  Forall Imported.cuttable templates.
Proof.
  intros Hm. unfold loadTemplates. destruct memo as [ts|].
  - intros [= <- _]. now apply Hm.
  - destruct (LoadTreeEntries (importer st) (world st)) as [[[e|] imp] w];
      [discriminate|].
    intros [= <- _]. apply converted_kept.
Qed.

Lemma queueTemplateDeps_no_panic cName cTemplates memo (st : state World)
    files :
  (forall ts, memo = Some ts -> Forall Imported.cuttable ts) ->
  (queueTemplateDeps cName cTemplates memo st files).1 <> Panic.
Proof.
  revert memo st files; induction cTemplates as [|t rest IH];
    intros memo st files Hm; simpl; [discriminate|].
  destruct (String.eqb (Path t) ""); [now apply IH|].
  destruct (loadTemplates memo st) as [[e|templates] st1] eqn:Hload;
    [discriminate|].
  destruct (length templates <? 1)%nat; [discriminate|].
  pose proof (loadTemplates_cuttable _ _ _ _ Hm Hload) as Hc.
  destruct (queueMatching templates files) as [files1|] eqn:Hq.
  - apply IH. now intros ts [= <-].
  - now apply queueMatching_no_panic in Hq.
Qed.

(** [ImportFromRepo] never panics: the slice that cuts [templates/] off
    a tree entry is in range, since the filter kept the entry. *)
Theorem ImportFromRepo_no_panic packageURL c (st : state World) :
  (prepareImport packageURL c st).1 <> Panic
  /\ forall st', ~ ImportFromRepo packageURL c st Panic st'.
Proof.
  assert (Hprep : (prepareImport packageURL c st).1 <> Panic).
  { unfold prepareImport.
    destruct (DownloadFileIfNotExists _ _ (world st)) as [[e|] w];
      [discriminate|].
    pose proof (ImportFromConfig_no_panic
                  (filepath_Join [os_TempDir; "/proji/configs/";
                                  filepath_Base (urlPath packageURL)]) c w)
      as Hcfg.
    destruct (ImportFromConfig _ c w) as [c1|e|]; [|discriminate|easy].
    pose proof (queueTemplateDeps_no_panic (Name c1) (Templates c1) None
                  (mkState (importer st) w) ∅ ltac:(discriminate)) as Hq.
    destruct (queueTemplateDeps _ _ None _ ∅) as [[files|e|] st1];
      [discriminate | discriminate | easy]. }
  split; [exact Hprep|]. intros st' Hi.
  inversion Hi as [| st1 Hp |c1 files st1 e st2 Hp Hf Hr].
  - now rewrite Hp in Hprep.
  - destruct e; discriminate.
Qed.

(** The tree is requested at most once, and not at all when no template
    of the package has a path. *)
Lemma queueTemplateDeps_state cName cTemplates memo (st : state World)
    files :
  (queueTemplateDeps cName cTemplates memo st files).2 = st
  \/ (memo = None
      /\ (queueTemplateDeps cName cTemplates memo st files).2
         = Imported.loaded st).
Proof.
  revert memo st files; induction cTemplates as [|t rest IH];
    intros memo st files; simpl; [now left|].
  destruct (String.eqb (Path t) ""); [apply IH|].
  unfold loadTemplates, Imported.loaded. destruct memo as [ts|].
  - destruct (length ts <? 1)%nat; [now left|].
    destruct (queueMatching ts files) as [files1|]; [|now left].
    destruct (IH (Some ts) st files1) as [Hs | [Hn _]]; [now left | easy].
  - right. split; [reflexivity|].
    destruct (LoadTreeEntries (importer st) (world st)) as [[[e|] imp] w];
      [reflexivity|].
    destruct (length _ <? 1)%nat; [reflexivity|].
    destruct (queueMatching _ files) as [files1|]; [|reflexivity].
    destruct (IH (Some (filterAndConvertTreeEntries imp [rexTemplates]))
                (mkState imp w) files1) as [Hs | [Hn _]]; [exact Hs | easy].
Qed.

(** The first loop of [ImportFromRepo] requests the tree of the
    repository at most once, however many templates have a path, and not
    at all when no template has one: it then queues nothing and leaves
    the state as it is. *)
Theorem tree_loaded_at_most_once cName cTemplates (st : state World) files :
  ((queueTemplateDeps cName cTemplates None st files).2 = st
   \/ (queueTemplateDeps cName cTemplates None st files).2
      = Imported.loaded st)
  /\ (Forall (fun t => Path t = "") cTemplates ->
      queueTemplateDeps cName cTemplates None st files = (Ok files, st)).
Proof.
  split.
  - destruct (queueTemplateDeps_state cName cTemplates None st files)
      as [Hs | [_ Hl]]; [now left | now right].
  - intros Hall. generalize (@None (list Template)).
    induction Hall as [|t rest Ht _ IH]; intros memo; simpl; [reflexivity|].
    rewrite Ht. simpl. apply IH.
Qed.

Lemma queueMatching_keeps templates (files files' : FileMap) :
  queueMatching templates files = Some files' ->
  files' !!! pluginsKey = files !!! pluginsKey
  /\ exists more,
       files' !!! templatesKey = ((files !!! templatesKey) ++ more)%list.
Proof.
  revert files; induction templates as [|t rest IH]; intros files; simpl.
  - intros [= <-]. split; [reflexivity|]. exists []. now rewrite app_nil_r.
  - destruct (Go.slice_from (Destination t) _) as [trimmed|]; simpl;
      [|discriminate].
    intros Hq. destruct (IH _ Hq) as [Hp [more Hm]].
    destruct (Go.HasPrefix trimmed (Path t)).
    + rewrite Hp, Hm, appendFile_lookup, appendFile_other by discriminate.
      split; [reflexivity|]. exists (trimmed :: more).
      now rewrite <- app_assoc.
    + split; [exact Hp | now exists more].
Qed.

Lemma queueTemplateDeps_keeps cName cTemplates memo (st st' : state World)
    files files' :
  queueTemplateDeps cName cTemplates memo st files = (Ok files', st') ->
  files' !!! pluginsKey = files !!! pluginsKey
  /\ exists more,
       files' !!! templatesKey = ((files !!! templatesKey) ++ more)%list.
Proof.
  revert memo st files; induction cTemplates as [|t rest IH];
    intros memo st files; simpl.
  - intros [= <- _]. split; [reflexivity|]. exists []. now rewrite app_nil_r.
  - destruct (String.eqb (Path t) ""); [apply IH|].
    destruct (loadTemplates memo st) as [[e|templates] st1]; [discriminate|].
    destruct (length templates <? 1)%nat; [discriminate|].
    destruct (queueMatching templates files) as [files1|] eqn:Hq;
      [|discriminate].
    intros Hrest. destruct (IH _ _ _ Hrest) as [Hp [more Hm]].
    destruct (queueMatching_keeps _ _ _ Hq) as [Hp1 [more1 Hm1]].
    split; [congruence|]. exists (more1 ++ more)%list.
    now rewrite Hm, Hm1, <- app_assoc.
Qed.

Lemma queueDeclared_lists c (files : FileMap) :
  queueDeclared c files !!! templatesKey
  = ((files !!! templatesKey) ++ (Path <$> Templates c))%list
  /\ queueDeclared c files !!! pluginsKey
     = ((files !!! pluginsKey) ++ (PluginPath <$> Plugins c))%list.
Proof.
  unfold queueDeclared.
  assert (Ht : forall l (m : FileMap),
             fold_left (fun m t => appendFile templatesKey (Path t) m) l m
               !!! templatesKey
             = ((m !!! templatesKey) ++ (Path <$> l))%list
             /\ fold_left (fun m t => appendFile templatesKey (Path t) m) l m
                  !!! pluginsKey = m !!! pluginsKey).
  { induction l as [|t l IH]; intros m; simpl.
    - now rewrite app_nil_r.
    - destruct (IH (appendFile templatesKey (Path t) m)) as [-> ->].
      rewrite appendFile_lookup, appendFile_other by discriminate.
      now rewrite <- app_assoc. }
  assert (Hp : forall l (m : FileMap),
             fold_left (fun m pl => appendFile pluginsKey (PluginPath pl) m)
               l m !!! pluginsKey
             = ((m !!! pluginsKey) ++ (PluginPath <$> l))%list
             /\ fold_left
                  (fun m pl => appendFile pluginsKey (PluginPath pl) m) l m
                  !!! templatesKey = m !!! templatesKey).
  { induction l as [|pl l IH]; intros m; simpl.
    - now rewrite app_nil_r.
    - destruct (IH (appendFile pluginsKey (PluginPath pl) m)) as [-> ->].
      rewrite appendFile_lookup, appendFile_other by discriminate.
      now rewrite <- app_assoc. }
  destruct (Hp (Plugins c)
              (fold_left (fun m t => appendFile templatesKey (Path t) m)
                 (Templates c) files)) as [-> ->].
  destruct (Ht (Templates c) files) as [-> ->]. auto.
Qed.

(** The files [ImportFromRepo] downloads for the package it imported:
    the path of every plugin, in order; after the tree entries the first
    loop queued, the path of every template, the empty ones included;
    and so at least one file. *)
Theorem queued_files packageURL c (st st1 : state World) c1 files :
  prepareImport packageURL c st = (Ok (c1, files), st1) ->
  files !!! pluginsKey = PluginPath <$> Plugins c1
  /\ (exists matched,
        files !!! templatesKey = (matched ++ (Path <$> Templates c1))%list)
  /\ (length (Templates c1) + length (Plugins c1) <= numFiles files)%nat
  /\ (1 <= numFiles files)%nat
  /\ Imported.valid c1.
Proof.
  unfold prepareImport.
  destruct (DownloadFileIfNotExists _ _ (world st)) as [[e|] w];
    [discriminate|].
  destruct (ImportFromConfig _ c w) as [c2|e|] eqn:Hcfg; try discriminate.
  destruct (queueTemplateDeps _ _ None _ ∅) as [[files1|e|] st2] eqn:Hq;
    try discriminate.
  intros [= <- <- _].
  destruct (ImportFromConfig_checks _ _ _ _ Hcfg) as [_ [_ Hvalid]].
  destruct (queueTemplateDeps_keeps _ _ _ _ _ _ _ Hq) as [Hp [matched Hm]].
  destruct (queueDeclared_lists c2 files1) as [Ht Hpl].
  rewrite lookup_total_empty in Hp, Hm. simpl in Hm.
  assert (Hplug : queueDeclared c2 files1 !!! pluginsKey
                  = PluginPath <$> Plugins c2)
    by (rewrite Hpl, Hp; reflexivity).
  assert (Hlen : (length (Templates c2) + length (Plugins c2)
                  <= numFiles (queueDeclared c2 files1))%nat).
  { unfold numFiles. rewrite Hplug, Ht, length_app, !length_fmap. lia. }
  split; [exact Hplug|]. split; [exists matched; now rewrite Ht, Hm|].
  split; [exact Hlen|]. split; [|exact Hvalid].
  destruct Hvalid as [_ [_ He]]. unfold isEmpty in He.
  apply andb_false_iff in He. rewrite !Nat.eqb_neq in He. lia.
Qed.

End Queued.

Section Pools.

Context {State Task Out : Type}.
Variable body : Task -> State -> Task + Out -> State -> Prop.
Variable chan : Out -> option nat.
Variable cap : nat.

(** From any state of a run the goroutines that are left can be run to
    their end. *)
Lemma completes_from cost n ts s p :
  (forall t s t' s', body t s (inl t') s' -> (cost t' < cost t)%nat) ->
  (forall t s, exists x s', body t s x s') ->
  (length ts <= cap)%nat ->
  reachable body chan cap n ts s p ->
  exists p', rtc (step body chan cap) p p' /\ running p' = [].
Proof.
  intros Hcost Htot Hcap.
  remember (weight cost p) as k eqn:Hk.
  revert p Hk. induction k as [k IH] using lt_wf_ind. intros p Hk Hr.
  destruct (running p) as [|t rest] eqn:Hrun.
  - exists p. split; [apply rtc_refl | exact Hrun].
  - destruct (progress body chan cap n ts s p Htot Hcap Hr) as [p1 Hs].
    { rewrite Hrun. discriminate. }
    destruct (IH (weight cost p1)) with (p := p1) as [p2 [Hrun2 Hnil]].
    + subst k. now apply step_weight with (body := body) (chan := chan)
                                          (cap := cap).
    + reflexivity.
    + unfold reachable in *. eapply rtc_r; eassumption.
    + exists p2. split; [eapply rtc_l; eassumption | exact Hnil].
Qed.

(** The steps left never exceed the steps the goroutines had at the
    launch. *)
Lemma weight_bounded cost n ts s p :
  (forall t s t' s', body t s (inl t') s' -> (cost t' < cost t)%nat) ->
  reachable body chan cap n ts s p ->
  (weight cost p <= list_sum (map (fun t => S (cost t)) ts))%nat.
Proof.
  intros Hcost. unfold reachable. revert p. apply rtc_ind_r.
  - unfold weight. simpl. lia.
  - intros p1 p2 _ Hs Hle.
    pose proof (step_weight body chan cap cost p1 p2 Hcost Hs). lia.
Qed.

End Pools.

Lemma filter_all {A} (f : A -> bool) l :
  length (List.filter f l) = length l -> List.filter f l = l.
Proof.
  induction l as [|x l IH]; simpl; [reflexivity|].
  destruct (f x); simpl; intros Hl.
  - f_equal. apply IH. lia.
  - pose proof (List.filter_length_le f l). lia.
Qed.

Section Batches.

Context {World : Type} `{Platform World}.

Lemma launch_weight (tasks : list (string * string)) :
  list_sum (map (fun t => S (fetchCost t)) (launch <$> tasks))
  = (3 * length tasks)%nat.
Proof.
  induction tasks as [|t tasks IH]; [reflexivity|].
  rewrite fmap_cons. unfold list_sum in *. cbn [map fold_right length].
  rewrite IH. unfold launch, fetchCost. simpl. lia.
Qed.

(** The download of [ImportFromRepo] cannot hang and cannot go on for
    ever: from every state of a run the goroutines left can finish and
    [Wait] returns, and a run makes at most three steps per queued
    file. *)
Theorem download_always_completes packageURL c (st st1 : state World)
    c1 files p :
  prepareImport packageURL c st = (Ok (c1, files), st1) ->
  reachable fetchBody fetchChan (numFiles files) (Z.of_nat (numFiles files))
    (launch <$> fetchTasks files) (mkBatch st1 None) p ->
  (exists p',
      rtc (step fetchBody fetchChan (numFiles files)) p p' /\ released p')
  /\ (weight fetchCost p <= 3 * numFiles files)%nat
  /\ (forall p',
        step fetchBody fetchChan (numFiles files) p p' ->
        (weight fetchCost p' < weight fetchCost p)%nat).
Proof.
  intros Hprep Hr. pose proof (keysOK_prepareImport _ _ _ _ _ _ Hprep) as Hk.
  pose proof (launch_length files Hk) as Hlen.
  assert (Hcap : (length (launch <$> fetchTasks files) <= numFiles files)%nat)
    by lia.
  split; [|split].
  - destruct (completes_from fetchBody fetchChan (numFiles files) fetchCost
                _ _ _ p fetchBody_cost fetchBody_total Hcap Hr)
      as [p' [Hsteps Hnil]].
    exists p'. split; [exact Hsteps|].
    apply (fetch_waits_for_all files st1 p' Hk); [|exact Hnil].
    unfold reachable in *. eapply rtc_trans; eassumption.
  - pose proof (weight_bounded fetchBody fetchChan (numFiles files) fetchCost
                  _ _ _ p fetchBody_cost Hr) as Hw.
    rewrite launch_weight, (fetchTasks_length files Hk) in Hw. exact Hw.
  - intros p'. apply step_weight, fetchBody_cost.
Qed.

(** When no download can fail, [ImportFromRepo] returns the package it
    decoded and no error, whatever the order of the goroutines. *)
Theorem no_failure_no_error packageURL c (st st1 : state World) c1 files
    r st' :
  (forall dst src w, (DownloadFileIfNotExists dst src w).1 = None) ->
  prepareImport packageURL c st = (Ok (c1, files), st1) ->
  ImportFromRepo packageURL c st r st' ->
  r = Ok c1.
Proof.
  intros Hok Hprep Hi.
  destruct Hi as [e st2 Hp|st2 Hp|c2 files2 st2 e st3 Hp Hf];
    rewrite Hprep in Hp; try discriminate.
  injection Hp as <- <- <-.
  now rewrite (fetch_nil_when_none_fails _ _ _ _ Hok Hf).
Qed.

Lemma structure_has_templates c0 filters (st st1 : state World) c :
  Plugins c0 = [] ->
  ImportFromRepoStructure c0 filters st = (Ok c, st1) -> isEmpty c = false.
Proof.
  intros Hpl. unfold ImportFromRepoStructure.
  destruct (LoadTreeEntries (importer st) (world st)) as [[[e|] imp] w];
    [discriminate|].
  simpl. destruct (isEmpty _) eqn:He; [discriminate|].
  destruct (pickLabel mapLower (path_Base (Repo imp))); [|discriminate].
  intros [= <- _]. exact He.
Qed.

(** Once the tree of the collection is converted, the import of the
    collection returns if and only if every entry under [configs/] is a
    file. *)
Theorem collection_returns_iff_all_files collectionURL (st st1 : state World)
    c :
  ImportFromRepoStructure (NewPackage EmptyString EmptyString false)
    [rexConfigs] st = (Ok c, st1) ->
  (exists r st', ImportCollectionFromRepo collectionURL st r st')
  <-> Forall (fun t => IsFile t = true) (Templates c).
Proof.
  intros Hs. split.
  - intros [r [st' Hc]].
    destruct (Nat.eq_dec (length (collectionTasks c)) (length (Templates c)))
      as [Heq|Hne].
    + apply filter_all in Heq. rewrite <- Heq. unfold collectionTasks.
      apply List.Forall_forall. intros t Ht. apply filter_In in Ht. apply Ht.
    + exfalso. revert Hc. eapply collection_never_returns; [exact Hs|].
      pose proof (List.filter_length_le IsFile (Templates c)).
      unfold collectionTasks in *. lia.
  - intros Hall. eapply collection_returns; [exact Hs | |].
    + eapply structure_has_templates; [|exact Hs]. reflexivity.
    + unfold collectionTasks. apply forallb_filter_id.
      apply forallb_forall. now apply List.Forall_forall.
Qed.

Lemma outcomes_split (out : list (result Package)) :
  anyPanic out = false ->
  (length (importedPackages out) + length (importErrors out))%nat
  = length out.
Proof.
  unfold importedPackages, importErrors, omap.
  induction out as [|r out IH]; simpl; [reflexivity|].
  destruct r as [pkg|e|]; simpl; [| |discriminate]; intros Hp;
    specialize (IH Hp); lia.
Qed.

Lemma imported_valid collectionURL n ts (st : state World) p :
  reachable (importBody collectionURL) importChan n (Z.of_nat n) ts st p ->
  Forall Imported.valid (importedPackages (sent p)).
Proof.
  unfold reachable. revert p. apply rtc_ind_r; [constructor|].
  intros p1 p2 _ Hs Hv.
  destruct Hs as [pre t post m s t' s' out Hb|pre t post m s o s' out Hb _];
    simpl in *; [exact Hv|].
  unfold importedPackages in *. rewrite omap_app. apply Forall_app.
  split; [exact Hv|]. destruct Hb as [r [[= ->] Ht]].
  destruct r as [pkg|e|]; simpl; try constructor; [|constructor].
  inversion Ht as [e Hu|packageURL r st2 Hu Hi]; subst.
  inversion Hi as [| |c1 files st1 e st3 Hp Hf Hr]; subst.
  destruct e; [discriminate|]. injection Hr as <-.
  unfold prepareImport in Hp.
  destruct (DownloadFileIfNotExists _ _ (world s)) as [[e|] w];
    [discriminate|].
  destruct (ImportFromConfig _ _ w) as [c2|e|] eqn:Hcfg; try discriminate.
  destruct (queueTemplateDeps _ _ None _ ∅) as [[files1|e|] st4];
    try discriminate.
  injection Hp as <- _ _. now apply ImportFromConfig_checks in Hcfg.
Qed.

(** What a returned import of a collection adds up to: one outcome per
    entry under [configs/], a package or an error; no error exactly when
    every entry gave a package; and every package with a name, a label
    and a template or a plugin. *)
Theorem collection_accounts collectionURL (st st' : state World) pkgs e :
  ImportCollectionFromRepo collectionURL st (Ok (pkgs, e)) st' ->
  exists c st1 errs,
    ImportFromRepoStructure (NewPackage EmptyString EmptyString false)
      [rexConfigs] st = (Ok c, st1)
    /\ (length pkgs + length errs)%nat = length (Templates c)
    /\ e = aggregate errs
    /\ (e = None <-> length pkgs = length (Templates c))
    /\ Forall Imported.valid pkgs.
Proof.
  intros Hc.
  inversion Hc as [| | |c st1 p Hs He Hr Hrel Hres]; subst.
  destruct (anyPanic (sent p)) eqn:Hp; [discriminate|].
  injection Hres as <- <-.
  destruct (reachable_count _ _ _ _ _ _ _ Hr) as [Hwg _].
  unfold released in Hrel. pose proof (outcomes_split _ Hp) as Hsplit.
  exists c, st1, (importErrors (sent p)).
  split; [exact Hs|]. split; [lia|]. split; [reflexivity|]. split.
  - rewrite aggregate_lines.
    destruct (importErrors (sent p)) as [|x errs]; simpl in *;
      split; try discriminate; try lia; reflexivity.
  - eapply imported_valid, Hr.
Qed.

End Batches.

End ImportMore.


(** ** The import of a folder *)

Module FolderProps.

Import Package Folder.

(** Induction on a tree, with the property known of the entries of a
    directory. *)
Lemma node_induction (P : node -> Prop) :
  (forall name, P (File name)) ->
  (forall name e, P (Broken name e)) ->
  (forall name children, List.Forall P children -> P (Dir name children)) ->
  forall n, P n.
Proof.
  intros HF HB HD.
  refine (fix IH (n : node) : P n :=
            match n with
            | File name => HF name
            | Broken name e => HB name e
            | Dir name children =>
                HD name children
                  ((fix all (cs : list node) : List.Forall P cs :=
                      match cs with
                      | [] => @List.Forall_nil _ P
                      | c :: rest =>
                          @List.Forall_cons _ P c rest (IH c) (all rest)
                      end) children)
            end).
Qed.

Section Walk.

Variable mapLower : string -> string.
Variable IsInSlice : list string -> string -> bool.
Variable excludeDirs : list string.

Lemma walk_Dir rel name children templates :
  walk IsInSlice excludeDirs rel (Dir name children) templates
  = if IsInSlice excludeDirs name then inr templates
    else walkChildren IsInSlice excludeDirs rel children
           (templates ++ [mkTemplate false "" rel ""])%list.
Proof.
  simpl. destruct (IsInSlice excludeDirs name); [reflexivity|].
  generalize (templates ++ [mkTemplate false "" rel ""])%list.
  induction children as [|c rest IH]; intros acc; simpl; [reflexivity|].
  destruct (walk IsInSlice excludeDirs _ c acc); [reflexivity|].
  apply IH.
Qed.

Lemma walkChildren_listed rel children :
  List.Forall
    (fun n => forall rel templates,
         walk IsInSlice excludeDirs rel n templates
         = match broken IsInSlice excludeDirs n with
           | e :: _ => inl e
           | [] =>
               inr (templates ++ listed IsInSlice excludeDirs rel n)%list
           end) children ->
  forall templates,
    walkChildren IsInSlice excludeDirs rel children templates
    = match flat_map (broken IsInSlice excludeDirs) children with
      | e :: _ => inl e
      | [] =>
          inr (templates
               ++ flat_map
                    (fun c =>
                       listed IsInSlice excludeDirs
                         (joinRel rel (nodeName c)) c) children)%list
      end.
Proof.
  induction 1 as [|c rest Hc _ IH]; intros templates; simpl.
  - now rewrite app_nil_r.
  - rewrite Hc.
    destruct (broken IsInSlice excludeDirs c) as [|e errs]; simpl.
    + rewrite IH, <- app_assoc. reflexivity.
    + reflexivity.
Qed.

Lemma walk_listed n :
  forall rel templates,
    walk IsInSlice excludeDirs rel n templates
    = match broken IsInSlice excludeDirs n with
      | e :: _ => inl e
      | [] => inr (templates ++ listed IsInSlice excludeDirs rel n)%list
      end.
Proof.
  induction n as [name|name e|name children IH] using node_induction;
    intros rel templates.
  - reflexivity.
  - reflexivity.
  - rewrite walk_Dir. simpl.
    destruct (IsInSlice excludeDirs name); simpl; [now rewrite app_nil_r|].
    rewrite (walkChildren_listed rel children IH), <- app_assoc.
    reflexivity.
Qed.

Lemma walkRoot_listed root templates :
  walkRoot IsInSlice excludeDirs root templates
  = match brokenBelow IsInSlice excludeDirs root with
    | e :: _ => inl e
    | [] =>
        inr (templates ++ listedBelow IsInSlice excludeDirs root)%list
    end.
Proof.
  destruct root as [name|name children|name e]; simpl.
  - now rewrite app_nil_r.
  - rewrite (walkChildren_listed "" children); [reflexivity|].
    apply List.Forall_forall. intros n _. apply walk_listed.
  - reflexivity.
Qed.

(** [ImportFromFolderStructure] on a path that exists: it panics when
    the label of the base name does; else it fails with the error of the
    first entry that cannot be read, unless that entry is below an
    excluded directory; else the package gets the base name, its label,
    and after the templates it had one template for every entry below
    the root, depth first, except the excluded directories and all below
    them; and it fails when the package is empty then. *)
Theorem folder_import_lists (c : Package) (root : node) :
  ImportFromFolderStructure mapLower IsInSlice excludeDirs c (Some root)
  = match pickLabel mapLower (nodeName root) with
    | None => Panic
    | Some label =>
        match brokenBelow IsInSlice excludeDirs root with
        | e :: _ => Fail e
        | [] =>
            let c' :=
              mkPackage (nodeName root) label (PackageDescription c)
                (Templates c ++ listedBelow IsInSlice excludeDirs root)
                (Plugins c) (IsDefault c) in
            if isEmpty c'
            then Fail "no relevant data was found. Directory might be empty"
            else Ok c'
        end
    end.
Proof.
  unfold ImportFromFolderStructure.
  destruct (pickLabel mapLower (nodeName root)) as [label|]; [|reflexivity].
  rewrite walkRoot_listed.
  destruct (brokenBelow IsInSlice excludeDirs root); reflexivity.
Qed.

Lemma listed_shape n :
  forall rel,
    Forall (fun t => Path t = "") (listed IsInSlice excludeDirs rel n)
    /\ (plain IsInSlice excludeDirs n = true ->
        length (listed IsInSlice excludeDirs rel n) = entries n
        /\ length (List.filter IsFile (listed IsInSlice excludeDirs rel n))
           = files n).
Proof.
  induction n as [name|name e|name children IH] using node_induction;
    intros rel; simpl.
  - split; [now repeat constructor | auto].
  - split; [constructor | discriminate].
  - destruct (IsInSlice excludeDirs name); simpl;
      [split; [constructor | discriminate]|].
    assert (Hall : forall f : node -> string,
               Forall (fun t => Path t = "")
                 (flat_map (fun c => listed IsInSlice excludeDirs (f c) c)
                    children)
               /\ (forallb (plain IsInSlice excludeDirs) children = true ->
                   length
                     (flat_map (fun c => listed IsInSlice excludeDirs (f c) c)
                        children)
                   = list_sum (map entries children)
                   /\ length
                        (List.filter IsFile
                           (flat_map
                              (fun c => listed IsInSlice excludeDirs (f c) c)
                              children))
                      = list_sum (map files children))).
    { intros f. induction IH as [|c rest Hc _ IHrest]; simpl.
      - split; [constructor | auto].
      - destruct (Hc (f c)) as [Hp Hn]. destruct IHrest as [Hps Hns].
        split; [apply Forall_app; now split|].
        intros Hb. apply andb_true_iff in Hb. destruct Hb as [Hb1 Hb2].
        destruct (Hn Hb1) as [Hl Hf]. destruct (Hns Hb2) as [Hls Hfs].
        rewrite length_app, List.filter_app, length_app.
        unfold list_sum in *. simpl. lia. }
    destruct (Hall (fun c => joinRel rel (nodeName c))) as [Hp Hn].
    split; [now constructor|]. intros Hb. destruct (Hn Hb) as [Hl Hf].
    simpl. split; [now f_equal | exact Hf].
Qed.

Lemma listedBelow_shape root :
  Forall (fun t => Path t = "") (listedBelow IsInSlice excludeDirs root)
  /\ (plainBelow IsInSlice excludeDirs root = true ->
      S (length (listedBelow IsInSlice excludeDirs root)) = entries root
      /\ length (List.filter IsFile (listedBelow IsInSlice excludeDirs root))
         = match root with Dir _ _ => files root | _ => 0%nat end).
Proof.
  destruct root as [name|name children|name e]; simpl.
  - split; [constructor | auto].
  - induction children as [|c rest IH]; simpl.
    + split; [constructor | auto].
    + destruct (listed_shape c (nodeName c)) as [Hp Hn].
      destruct IH as [Hps Hns]. split; [apply Forall_app; now split|].
      intros Hb. apply andb_true_iff in Hb. destruct Hb as [Hb1 Hb2].
      destruct (Hn Hb1) as [Hl Hf]. destruct (Hns Hb2) as [Hls Hfs].
      rewrite length_app, List.filter_app, length_app.
      unfold list_sum in *. simpl. lia.
  - split; [constructor | discriminate].
Qed.

(** The import of a directory all of whose entries can be read and none
    of whose directories below the root is excluded, into a package
    without templates: as many templates as there are entries below the
    root, files and directories together, as many file templates as
    files, and no template has a source path. *)
Theorem folder_import_counts name label isDefault children rootName c' :
  forallb (plain IsInSlice excludeDirs) children = true ->
  ImportFromFolderStructure mapLower IsInSlice excludeDirs
    (NewPackage name label isDefault) (Some (Dir rootName children)) = Ok c' ->
  S (length (Templates c')) = entries (Dir rootName children)
  /\ length (List.filter IsFile (Templates c'))
     = files (Dir rootName children)
  /\ Forall (fun t => Path t = "") (Templates c').
Proof.
  intros Hplain. unfold ImportFromFolderStructure.
  destruct (pickLabel mapLower _) as [l|]; [|discriminate].
  rewrite walkRoot_listed.
  destruct (brokenBelow IsInSlice excludeDirs _); [|discriminate].
  match goal with |- context [isEmpty ?c] => destruct (isEmpty c) end;
    [discriminate|].
  intros [= <-]. cbn [Templates NewPackage app].
  destruct (listedBelow_shape (Dir rootName children)) as [Hp Hn].
  destruct (Hn Hplain) as [Hl Hf]. auto.
Qed.

End Walk.

End FolderProps.

(** ** The calls of [Create] *)

Module TraceProps.

Import Project Trace ProjectProps.

Section Calls.

Context {World : Type} `{OS World}.

(** The calls of [createFilesAndFolders]: for every template in stored
    order the copy, when the template has a path, and then the file or
    the folder at its destination, each made on the state the call
    before left; the first call that fails ends the loop with its error
    and no later call is made.  These are at most two calls per
    template, none of them runs a plugin or changes the directory. *)
Theorem createFilesAndFolders_calls p configPath (s : state World) :
  createFilesAndFolders p configPath s
  = performAll
      (flat_map (templateEvents (filepath_Join [configPath; "/templates/"]))
         (Templates (class p))) s
  /\ (length
        (flat_map (templateEvents (filepath_Join [configPath; "/templates/"]))
           (Templates (class p)))
      <= 2 * length (Templates (class p)))%nat
  /\ Forall (fun ev =>
               match ev with
               | EvCopy _ _ | EvCreate _ | EvMkdirAll _ => True
               | _ => False
               end)
       (flat_map (templateEvents (filepath_Join [configPath; "/templates/"]))
          (Templates (class p))).
Proof.
  split; [apply writeTemplates_performs|].
  generalize (filepath_Join [configPath; "/templates/"]) as templatePath.
  intros templatePath.
  induction (Templates (class p)) as [|t rest [IHl IHf]]; simpl;
    [split; [lia | constructor]|].
  rewrite length_app. unfold templateEvents at 1 3.
  destruct (0 <? String.length (Path t))%nat, (IsFile t); simpl;
    (split; [lia | repeat constructor; exact IHf]).
Qed.

(** [Create] with a [cwd] that is not empty.  It makes the project
    folder and changes into it; when either call fails it returns that
    error at once and makes no other call.  Otherwise it runs the
    plugins with a negative number, writes the templates and runs the
    plugins with a positive number, in this order and up to the first
    call that fails; then, whatever these returned, it changes the
    directory back as its last call, drops the error of this call and
    returns what the phases returned.  It never panics. *)
Theorem Create_calls p cwd configPath (s : state World) :
  cwd <> "" ->
  exists back,
    normalizeCwd cwd = Some back
    /\ Create p cwd configPath s
       = match performAll [EvMkdir (Name p); EvChdir (Name p)] s with
         | (Ok _, s1) =>
             let '(r, s2) := performAll (phaseEvents p configPath) s1 in
             (r, mkState (os_Chdir back (world s2)).2
                   (log s2 ++ [EvChdir back])%list)
         | failed => failed
         end
    /\ (Create p cwd configPath s).1 <> Panic.
Proof.
  intros Hne. destruct (normalizeCwd cwd) as [back|] eqn:Hn;
    [|now apply normalizeCwd_None in Hn].
  exists back. split; [reflexivity|].
  assert (Heq : Create p cwd configPath s
                = match performAll [EvMkdir (Name p); EvChdir (Name p)] s with
                  | (Ok _, s1) =>
                      let '(r, s2) := performAll (phaseEvents p configPath) s1
                      in (r, mkState (os_Chdir back (world s2)).2
                               (log s2 ++ [EvChdir back])%list)
                  | failed => failed
                  end).
  { unfold Create, createProjectFolder, andThen, call. rewrite Hn. simpl.
    destruct (os_Mkdir (Name p) (world s)) as [[e|] w1]; [reflexivity|].
    simpl. destruct (os_Chdir (Name p) w1) as [[e|] w2]; [reflexivity|].
    unfold defer, call, preRunPlugins, createFilesAndFolders, postRunPlugins.
    pose proof (phases_performs p configPath
                  (mkState w2 ((log s ++ [EvMkdir (Name p)])
                               ++ [EvChdir (Name p)])%list)) as Hph.
    unfold phases, andThen, preRunPlugins, createFilesAndFolders,
      postRunPlugins in Hph.
    rewrite Hph.
    destruct (performAll (phaseEvents p configPath) _) as [r s2].
    destruct (os_Chdir back (world s2)) as [e w3]. reflexivity. }
  split; [exact Heq|]. rewrite Heq.
  pose proof (performAll_no_panic [EvMkdir (Name p); EvChdir (Name p)] s)
    as Hp1.
  destruct (performAll [EvMkdir (Name p); EvChdir (Name p)] s)
    as [[[]|e|] s1]; simpl in *; [|discriminate|congruence].
  pose proof (performAll_no_panic (phaseEvents p configPath) s1) as Hp2.
  destruct (performAll (phaseEvents p configPath) s1) as [r s2]. exact Hp2.
Qed.

End Calls.

(** The directory [Create] changes back to is [cwd] with a slash
    appended, also when [cwd] ends with a slash already; only a [cwd] of
    two bytes that starts with a slash is left as it is. *)
Theorem normalizeCwd_appends (cwd : string) :
  cwd <> "" ->
  normalizeCwd cwd
  = Some (if (String.length cwd =? 2)%nat
             && String.eqb (String.substring 0 1 cwd) "/"
          then cwd else cwd ++ "/").
Proof.
  intros Hne. unfold normalizeCwd, Go.slice_to.
  destruct cwd as [|c cwd]; [contradiction|].
  replace ((0 <=? Z.of_nat (String.length (String c cwd)) - 1)
           && (Z.of_nat (String.length (String c cwd)) - 1
               <=? Z.of_nat (String.length (String c cwd)))) with true
    by (symmetry; rewrite andb_true_iff, !Z.leb_le; simpl String.length; lia).
  replace (Z.to_nat (Z.of_nat (String.length (String c cwd)) - 1))
    with (String.length cwd) by (simpl String.length; lia).
  simpl mbind. f_equal.
  destruct cwd as [|d [|d' cwd]].
  - reflexivity.
  - simpl. now destruct (Ascii.eqb c "/").
  - replace (String.length (String c (String d (String d' cwd))) =? 2)%nat
      with false by reflexivity.
    simpl. destruct (Ascii.eqb c "/"); reflexivity.
Qed.

End TraceProps.

(** ** Runs of the sample environment *)

Module MoreRuns.

Import Package FanOut.

Lemma pickLabel_ascii_shape_witness :
  (1 <= String.length "mca" <= 5)%nat /\ Label.isLowerASCII "mca" = true.
Proof.
  apply (LabelProps.pickLabel_ascii_shape (fun s => s) "my-cool-app" "mca");
    [reflexivity | discriminate | reflexivity].
Defined.

Lemma ImportFromRepoStructure_not_empty_witness :
  exists c st',
    ImportFromRepoStructure (NewPackage "" "" false) [rexConfigs]
      (mkState Sample.nestedConfigs Sample.disk) = (Ok c, st')
    /\ Templates c <> []
    /\ Name c = "collection"
    /\ Label c = "ccn".
Proof.
  eexists _, _. split; [vm_compute; reflexivity|].
  destruct (ImportMore.ImportFromRepoStructure_not_empty "" "" false
              [rexConfigs] (mkState Sample.nestedConfigs Sample.disk)
              (mkState Sample.nestedConfigs Sample.disk)
              (mkPackage "collection" "ccn" ""
                 [mkTemplate false "" "configs/sub" "";
                  mkTemplate true "" "configs/sub/a.toml" ""] [] false))
    as [_ [Hne _]]; [vm_compute; reflexivity|].
  split; [exact Hne|]. split; reflexivity.
Defined.

Lemma queued_files_witness :
  Sample.preparedFiles !!! pluginsKey = ["missing.sh"]
  /\ (1 <= numFiles Sample.preparedFiles)%nat.
Proof.
  destruct (ImportMore.queued_files Sample.configURL
              (NewPackage "" "" false)
              (mkState Sample.twoFolders Sample.disk) Sample.prepared.2
              Sample.decoded Sample.preparedFiles)
    as [Hp [_ [_ [Hn _]]]]; [vm_compute; reflexivity|].
  split; [exact Hp | exact Hn].
Defined.

Lemma download_always_completes_witness :
  exists p',
    rtc (step fetchBody fetchChan (numFiles Sample.preparedFiles))
      (mkPool (Z.of_nat (numFiles Sample.preparedFiles))
         (launch <$> fetchTasks Sample.preparedFiles)
         (mkBatch Sample.prepared.2 None) []) p'
    /\ released p'.
Proof.
  destruct (ImportMore.download_always_completes Sample.configURL
              (NewPackage "" "" false)
              (mkState Sample.twoFolders Sample.disk) Sample.prepared.2
              Sample.decoded Sample.preparedFiles
              (mkPool (Z.of_nat (numFiles Sample.preparedFiles))
                 (launch <$> fetchTasks Sample.preparedFiles)
                 (mkBatch Sample.prepared.2 None) []))
    as [Hdone _]; [vm_compute; reflexivity | apply rtc_refl | exact Hdone].
Defined.

Lemma no_failure_no_error_witness :
  exists r st',
    ImportFromRepo (H := Sample.mirror) Sample.configURL
      (NewPackage "" "" false) (mkState Sample.twoFolders Sample.disk) r st'
    /\ r = Ok Sample.decoded.
Proof.
  destruct (ImportProps.ImportFromRepo_returns (H := Sample.mirror)
              Sample.configURL (NewPackage "" "" false)
              (mkState Sample.twoFolders Sample.disk)) as [r [st' Hi]].
  exists r, st'. split; [exact Hi|].
  apply (ImportMore.no_failure_no_error (H := Sample.mirror)
           Sample.configURL (NewPackage "" "" false)
           (mkState Sample.twoFolders Sample.disk) Sample.mirrored.2
           Sample.decoded Sample.mirroredFiles r st');
    [intros dst src w; reflexivity | vm_compute; reflexivity | exact Hi].
Defined.

Lemma collection_returns_iff_all_files_witness :
  (exists r st',
      ImportCollectionFromRepo Sample.collectionURL
        (mkState Sample.nestedConfigs Sample.disk) r st')
  <-> Forall (fun t => IsFile t = true)
        [mkTemplate false "" "configs/sub" "";
         mkTemplate true "" "configs/sub/a.toml" ""].
Proof.
  apply (ImportMore.collection_returns_iff_all_files Sample.collectionURL
           (mkState Sample.nestedConfigs Sample.disk)
           (mkState Sample.nestedConfigs Sample.disk)
           (mkPackage "collection" "ccn" ""
              [mkTemplate false "" "configs/sub" "";
               mkTemplate true "" "configs/sub/a.toml" ""] [] false)).
  vm_compute. reflexivity.
Defined.

(** The import of a collection whose only config cannot be downloaded:
    the goroutine of the config sends the error of the download. *)
Lemma lost_collection_run :
  ImportCollectionFromRepo Sample.collectionURL
    (mkState Sample.lostConfig Sample.disk)
    (Ok ([], aggregate ["cannot download raw/configs/missing.toml"]))
    (mkState Sample.lostConfig Sample.disk).
Proof.
  pose (st := mkState Sample.lostConfig Sample.disk).
  pose (c := mkPackage "collection" "ccn" ""
               [mkTemplate true "" "configs/missing.toml" ""] [] false).
  pose (p := mkPool (Task := Template) 0 [] st
               [@Fail Package "cannot download raw/configs/missing.toml"]).
  change (ImportCollectionFromRepo Sample.collectionURL st
            (if anyPanic (sent p) then Panic
             else Ok (importedPackages (sent p),
                      aggregate (importErrors (sent p))))
            (shared p)).
  apply (collection_run Sample.collectionURL st c st p).
  - vm_compute. reflexivity.
  - reflexivity.
  - unfold reachable. eapply rtc_l; [|apply rtc_refl].
    apply (step_done (importBody Sample.collectionURL) importChan 1 []
             (mkTemplate true "" "configs/missing.toml" "") [] 1 st
             (Fail "cannot download raw/configs/missing.toml") st []).
    + exists (Fail "cannot download raw/configs/missing.toml").
      split; [reflexivity|]. eapply task_import; [reflexivity|].
      apply import_fail. vm_compute. reflexivity.
    + intros k _. vm_compute. lia.
  - reflexivity.
Qed.

Lemma collection_accounts_witness :
  exists c st1 errs,
    ImportFromRepoStructure (NewPackage EmptyString EmptyString false)
      [rexConfigs] (mkState Sample.lostConfig Sample.disk) = (Ok c, st1)
    /\ (length (@nil Package) + length errs)%nat = length (Templates c)
    /\ aggregate ["cannot download raw/configs/missing.toml"]
       = aggregate errs
    /\ (aggregate ["cannot download raw/configs/missing.toml"] = None
        <-> length (@nil Package) = length (Templates c))
    /\ Forall Imported.valid (@nil Package).
Proof.
  apply (ImportMore.collection_accounts Sample.collectionURL
           (mkState Sample.lostConfig Sample.disk)
           (mkState Sample.lostConfig Sample.disk)).
  apply lost_collection_run.
Defined.

Lemma folder_import_counts_witness :
  exists c',
    Folder.ImportFromFolderStructure (fun s => s) Sample.IsInSlice [".git"]
      (NewPackage "" "" false) (Some Sample.folder) = Ok c'
    /\ Label c' = "ma"
    /\ S (length (Templates c')) = Folder.entries Sample.folder
    /\ length (List.filter IsFile (Templates c'))
       = Folder.files Sample.folder.
Proof.
  exists (mkPackage "my-app" "ma" ""
            [mkTemplate true "" "README.md" "";
             mkTemplate false "" "cmd" "";
             mkTemplate true "" "cmd/main.go" "";
             mkTemplate false "" "docs" ""] [] false).
  split; [vm_compute; reflexivity|]. split; [reflexivity|].
  destruct (FolderProps.folder_import_counts (fun s => s) Sample.IsInSlice
              [".git"] "" "" false
              [Folder.File "README.md";
               Folder.Dir "cmd" [Folder.File "main.go"];
               Folder.Dir "docs" []] "my-app"
              (mkPackage "my-app" "ma" ""
                 [mkTemplate true "" "README.md" "";
                  mkTemplate false "" "cmd" "";
                  mkTemplate true "" "cmd/main.go" "";
                  mkTemplate false "" "docs" ""] [] false))
    as [Hn [Hf _]]; [reflexivity | vm_compute; reflexivity|].
  split; [exact Hn | exact Hf].
Defined.

Lemma Create_calls_witness :
  exists back,
    Project.normalizeCwd "/home/u" = Some back
    /\ (Project.Create Sample.failing "/home/u" "/cfg" Sample.start).1
       <> Panic.
Proof.
  destruct (TraceProps.Create_calls Sample.failing "/home/u" "/cfg"
              Sample.start) as [back [Hn [_ Hp]]]; [discriminate|].
  exists back. split; assumption.
Defined.

Lemma normalizeCwd_appends_witness :
  Project.normalizeCwd "/home/u/" = Some "/home/u//".
Proof.
  apply (TraceProps.normalizeCwd_appends "/home/u/"). discriminate.
Defined.

End MoreRuns.
